(** * css-modules-types-generator: a shallow embedding of [src/index.ts]
      and of the watch-mode command of [src/cli.ts].

    Strings are Rocq [string]s (class names, paths and the emitted text are
    taken to be ASCII; the case mappings below are JavaScript's restricted
    to ASCII, and a character outside ASCII is left alone).  The
    external collaborators (glob, sass, postcss-modules, node:fs) are the
    fields of a type class; node:path is modelled for POSIX on path
    components. *)

From Stdlib Require Import String Ascii List Bool Arith Lia DecimalString.
Import ListNotations.
Open Scope list_scope.
Open Scope string_scope.

Set Implicit Arguments.

(* ===================================================================== *)
(** ** JavaScript string primitives used by the source                     *)
(* ===================================================================== *)

Module Js.

Definition code (c : ascii) : nat := nat_of_ascii c.

Definition isUpper (c : ascii) : bool := ((65 <=? code c) && (code c <=? 90))%nat.
Definition isLower (c : ascii) : bool := ((97 <=? code c) && (code c <=? 122))%nat.
Definition isDigit (c : ascii) : bool := ((48 <=? code c) && (code c <=? 57))%nat.

Definition lowerChar (c : ascii) : ascii :=
  if isUpper c then ascii_of_nat (code c + 32)%nat else c.
Definition upperChar (c : ascii) : ascii :=
  if isLower c then ascii_of_nat (code c - 32)%nat else c.

Fixpoint mapChars (f : ascii -> ascii) (s : string) : string :=
  match s with
  | EmptyString => EmptyString
  | String c r => String (f c) (mapChars f r)
  end.

(** [s.toLowerCase()], [s.toUpperCase()]. *)
Definition toLowerCase : string -> string := mapChars lowerChar.
Definition toUpperCase : string -> string := mapChars upperChar.

(** [s.charAt(0)]: the first character as a string, or the empty string. *)
Definition charAt0 (s : string) : string :=
  match s with
  | EmptyString => EmptyString
  | String c _ => String c EmptyString
  end.

(** [s.slice(1)]. *)
Definition slice1 (s : string) : string :=
  match s with
  | EmptyString => EmptyString
  | String _ r => r
  end.

Fixpoint allChars (p : ascii -> bool) (s : string) : bool :=
  match s with
  | EmptyString => true
  | String c r => p c && allChars p r
  end.

(** [Boolean(s)] for a string: the empty string is falsy. *)
Definition truthy (s : string) : bool :=
  match s with
  | EmptyString => false
  | String _ _ => true
  end.

(** [xs.join(sep)]. *)
Fixpoint join (sep : string) (xs : list string) : string :=
  match xs with
  | [] => ""
  | [x] => x
  | x :: r => x ++ sep ++ join sep r
  end.

Fixpoint startsWith (p s : string) : bool :=
  match p, s with
  | EmptyString, _ => true
  | String a p', String b s' => Ascii.eqb a b && startsWith p' s'
  | String _ _, EmptyString => false
  end.

(** [s.includes(p)]. *)
Fixpoint includes (p s : string) : bool :=
  startsWith p s ||
  match s with
  | EmptyString => false
  | String _ s' => includes p s'
  end.

Fixpoint rev (s : string) : string :=
  match s with
  | EmptyString => EmptyString
  | String c r => rev r ++ String c EmptyString
  end.

(** [s.endsWith(p)]. *)
Definition endsWith (p s : string) : bool := startsWith (rev p) (rev s).

(** [s.split(sep)] for a one-character separator: every occurrence cuts,
    so empty pieces are kept (["a//b".split("/")] is [["a"; ""; "b"]]). *)
Fixpoint splitChar (sep : ascii) (s : string) : list string :=
  match s with
  | EmptyString => [""]
  | String c r =>
      if Ascii.eqb c sep then "" :: splitChar sep r
      else match splitChar sep r with
           | [] => [String c ""]
           | p :: ps => String c p :: ps
           end
  end.

End Js.

(* ===================================================================== *)
(** ** Options ([GeneratorOptions] and the constructor's defaults)         *)
(* ===================================================================== *)

Inductive ExportType := ExportDefault | ExportNamed | ExportBoth.
Inductive NameFormat := CamelCase | Dashes | Original.

(** [GeneratorOptions]: every field but [pattern] may be absent. *)
Record GeneratorOptions := {
  opt_pattern : string;
  opt_output : option string;
  opt_watch : option bool;
  opt_exportType : option ExportType;
  opt_nameFormat : option NameFormat;
  opt_debug : option bool
}.

(** [Required<GeneratorOptions>], the generator's [this.options]. *)
Record Options := {
  pattern : string;
  output : string;
  watch : bool;
  exportType : ExportType;
  nameFormat : NameFormat;
  debug : bool
}.

(** [x || d] on an optional string: absent and empty are both falsy. *)
Definition orString (x : option string) (d : string) : string :=
  match x with
  | Some s => if Js.truthy s then s else d
  | None => d
  end.

Definition orBool (x : option bool) (d : bool) : bool :=
  match x with
  | Some true => true
  | _ => d
  end.

Definition orElse {A} (x : option A) (d : A) : A :=
  match x with
  | Some a => a
  | None => d
  end.

(** [new CssModulesTypesGenerator(options)]. *)
Definition construct (o : GeneratorOptions) : Options :=
  {| pattern := opt_pattern o;
     output := orString (opt_output o) "auto";
     watch := orBool (opt_watch o) false;
     exportType := orElse (opt_exportType o) ExportDefault;
     nameFormat := orElse (opt_nameFormat o) CamelCase;
     debug := orBool (opt_debug o) false |}.

(** The options of [new CssModulesTypesGenerator({ pattern })]. *)
Definition defaults (pat : string) : Options :=
  construct {| opt_pattern := pat; opt_output := None; opt_watch := None;
               opt_exportType := None; opt_nameFormat := None;
               opt_debug := None |}.

(* ===================================================================== *)
(** ** formatClassName                                                    *)
(* ===================================================================== *)

(** The delimiter class [[-_]]. *)
Definition isDelim (c : ascii) : bool :=
  Ascii.eqb c "-"%char || Ascii.eqb c "_"%char.

(** [name.split(/[-_]+/g)]: the pieces between maximal delimiter runs.  A
    run at the start or at the end leaves an empty piece there, as in
    JavaScript.  [inRun] says that the previous character was a delimiter
    (the piece before the run is already emitted); [cur] is the piece being
    read. *)
Fixpoint splitRuns (inRun : bool) (cur : string) (s : string) : list string :=
  match s with
  | EmptyString => [cur]
  | String c r =>
      if isDelim c then
        if inRun then splitRuns true "" r
        else cur :: splitRuns true "" r
      else splitRuns false (cur ++ String c "") r
  end.

Definition splitDelims (name : string) : list string :=
  splitRuns false "" name.

(** [/^[A-Z0-9_]+$/.test(part)]. *)
Definition isShouty (part : string) : bool :=
  Js.truthy part &&
  Js.allChars (fun c => Js.isUpper c || Js.isDigit c || Ascii.eqb c "_"%char) part.

Definition isLetter (c : ascii) : bool := Js.isUpper c || Js.isLower c.
Definition isWordChar (c : ascii) : bool :=
  isLetter c || Js.isDigit c || Ascii.eqb c "_"%char.

(** [/^[a-z_$][\w$]*$/i.test(s)]. *)
Definition isIdentifier (s : string) : bool :=
  match s with
  | EmptyString => false
  | String c r =>
      (isLetter c || Ascii.eqb c "_"%char || Ascii.eqb c "$"%char) &&
      Js.allChars (fun d => isWordChar d || Ascii.eqb d "$"%char) r
  end.

Definition quote (s : string) : string := "'" ++ s ++ "'".

(** The callback of [parts.map((part, i) => ...)] for [i === 0]. *)
Definition camelFirst (part : string) : string :=
  if isShouty part then Js.toLowerCase part
  else Js.toLowerCase (Js.charAt0 part) ++ Js.slice1 part.

(** The same callback for [i > 0]. *)
Definition camelRest (part : string) : string :=
  if isShouty part
  then Js.toUpperCase (Js.charAt0 part) ++ Js.toLowerCase (Js.slice1 part)
  else Js.toUpperCase (Js.charAt0 part) ++ Js.slice1 part.

Definition camelParts (parts : list string) : list string :=
  match parts with
  | [] => []
  | p :: ps => camelFirst p :: map camelRest ps
  end.

Definition formatCamelCase (name : string) : string :=
  let parts := filter Js.truthy (splitDelims name) in
  match parts with
  | [] => name
  | _ :: _ =>
      let camel := Js.join "" (camelParts parts) in
      if isIdentifier camel then camel else quote camel
  end.

Definition formatClassName (o : Options) (name : string) : string :=
  match nameFormat o with
  | CamelCase => formatCamelCase name
  | Dashes => quote name
  | Original => if isIdentifier name then name else quote name
  end.

(* ===================================================================== *)
(** ** generateTypeDefinition                                             *)
(* ===================================================================== *)

(** The line feed of the template literals. *)
Definition nl : string := String (ascii_of_nat 10) "".

(** A [Set<string>] is kept as the list of its elements in insertion order
    ([Array.from(classNames)]); [setAdd] is [Set.prototype.add]. *)
Definition setAdd (x : string) (xs : list string) : list string :=
  if existsb (String.eqb x) xs then xs else (xs ++ [x])%list.

Definition memberLine (name : string) : string :=
  "  readonly " ++ name ++ ": string;".

Definition indexSignature : string := "  readonly [key: string]: string;".

Definition namedLine (name : string) : string :=
  "export declare const " ++ name ++ ": string;".

Definition constLine (name : string) : string :=
  "export const " ++ name ++ ": string;".

(** The local [classNamesType]. *)
Definition classNamesType (formatted : list string) : string :=
  match formatted with
  | [] => indexSignature
  | _ :: _ => Js.join nl (map memberLine formatted)
  end.

(** The text of the ['default'] case. *)
Definition defaultBlock (formatted : list string) : string :=
  "export interface CssModuleClasses {" ++ nl ++
  classNamesType formatted ++ nl ++
  "}" ++ nl ++
  nl ++
  "export type ClassNames = keyof CssModuleClasses;" ++ nl ++
  nl ++
  "declare const classes: CssModuleClasses;" ++ nl ++
  "export default classes;" ++ nl.

Definition generateTypeDefinition (o : Options) (classNames : list string)
  : string :=
  let formattedClassNames := map (formatClassName o) classNames in
  match exportType o with
  | ExportNamed => Js.join nl (map namedLine formattedClassNames)
  | ExportBoth =>
      "export interface CssModuleClasses {" ++ nl ++
      classNamesType formattedClassNames ++ nl ++
      "}" ++ nl ++
      nl ++
      "export type ClassNames = keyof CssModuleClasses;" ++ nl ++
      nl ++
      "declare const classes: CssModuleClasses;" ++ nl ++
      "export default classes;" ++ nl ++
      nl ++
      Js.join nl (map constLine formattedClassNames) ++ nl
  | ExportDefault => defaultBlock formattedClassNames
  end.

(* ===================================================================== *)
(** ** node:path (POSIX)                                                  *)
(* ===================================================================== *)

Module Path.

Definition slash : ascii := "/"%char.
Definition dot : ascii := "."%char.

Definition isAbsolute (p : string) : bool := Js.startsWith "/" p.

(** One step of node's [normalizeString] on the components read so far,
    newest first: empty and ["."] components vanish, [".."] removes the
    component before it when there is one to remove. *)
Definition normStep (allowAboveRoot : bool) (acc : list string) (seg : string)
  : list string :=
  if String.eqb seg "" || String.eqb seg "." then acc
  else if String.eqb seg ".." then
    match acc with
    | [] => if allowAboveRoot then [".."] else []
    | last :: before =>
        if String.eqb last ".."
        then (if allowAboveRoot then ".." :: acc else acc)
        else before
    end
  else seg :: acc.

Definition normalizeFrom (allowAboveRoot : bool) (start : list string)
  (p : string) : list string :=
  List.rev (fold_left (normStep allowAboveRoot) (Js.splitChar slash p)
                      (List.rev start)).

(** [path.normalize]. *)
Definition normalize (p : string) : string :=
  match p with
  | EmptyString => "."
  | String _ _ =>
      let abs := isAbsolute p in
      let trailing := Js.endsWith "/" p in
      let body := Js.join "/" (normalizeFrom (negb abs) [] p) in
      match body with
      | EmptyString => if abs then "/" else if trailing then "./" else "."
      | String _ _ =>
          (if abs then "/" else "") ++ body ++ (if trailing then "/" else "")
      end
  end.

(** [path.join(a, b)]: empty arguments are skipped. *)
Definition join (a b : string) : string :=
  match a, b with
  | EmptyString, EmptyString => "."
  | EmptyString, _ => normalize b
  | _, EmptyString => normalize a
  | _, _ => normalize (a ++ "/" ++ b)
  end.

(** The working directory [process.cwd()] is an absolute, normalized path;
    it is kept as the list of its components (["/home/u/app"] is
    [["home"; "u"; "app"]], the root is [[]]). *)
Definition Cwd := list string.

Definition showAbsolute (comps : list string) : string :=
  "/" ++ Js.join "/" comps.

(** Components of [path.resolve(process.cwd(), p)], and of [path.resolve(p)]. *)
Definition resolveComps (cwd : Cwd) (p : string) : list string :=
  if isAbsolute p then normalizeFrom false [] p
  else normalizeFrom false cwd p.

Definition resolve (cwd : Cwd) (p : string) : string :=
  showAbsolute (resolveComps cwd p).

Fixpoint stripCommon (from to : list string) : list string * list string :=
  match from, to with
  | f :: from', t :: to' =>
      if String.eqb f t then stripCommon from' to' else (from, to)
  | _, _ => (from, to)
  end.

(** [path.relative(process.cwd(), p)]: both ends are resolved, the common
    leading components are dropped, each remaining component of the working
    directory becomes [".."]. *)
Definition relative (cwd : Cwd) (p : string) : string :=
  let '(up, down) := stripCommon cwd (resolveComps cwd p) in
  Js.join "/" (map (fun _ => "..") up ++ down)%list.

(** In [path.dirname]'s loop over [i >= 1] from the right: the characters
    left of the first slash that follows a non-slash; [None] when there is
    no such slash. *)
Fixpoint scanDir (r : string) (matchedSlash : bool) : option string :=
  match r with
  | EmptyString => None
  | String c r' =>
      if Ascii.eqb c slash
      then (if matchedSlash then scanDir r' true else Some r')
      else scanDir r' false
  end.

(** [path.dirname]. *)
Definition dirname (p : string) : string :=
  match p with
  | EmptyString => "."
  | String c0 rest =>
      let hasRoot := Ascii.eqb c0 slash in
      match scanDir (Js.rev rest) true with
      | None => if hasRoot then "/" else "."
      | Some EmptyString => if hasRoot then "//" else String c0 ""
      | Some r' => String c0 (Js.rev r')
      end
  end.

(** The last component of [p], reversed, trailing slashes ignored. *)
Fixpoint lastPartRev (r : string) (matchedSlash : bool) : string :=
  match r with
  | EmptyString => ""
  | String c r' =>
      if Ascii.eqb c slash
      then (if matchedSlash then lastPartRev r' true else "")
      else String c (lastPartRev r' false)
  end.

(** Splits a reversed component at its right-most dot: the extension
    (dot included, in reading order) and what is left of it (reversed). *)
Fixpoint cutAtDot (r : string) (ext : string) : option (string * string) :=
  match r with
  | EmptyString => None
  | String c r' =>
      if Ascii.eqb c dot then Some (String c ext, r')
      else cutAtDot r' (String c ext)
  end.

(** [path.extname]. *)
Definition extname (p : string) : string :=
  let base := lastPartRev (Js.rev p) true in
  match cutAtDot base "" with
  | None => ""
  | Some (ext, before) =>
      if String.eqb before "" then ""
      else if String.eqb base ".." then ""
      else ext
  end.

End Path.

(* ===================================================================== *)
(** ** getOutputPath                                                      *)
(* ===================================================================== *)

Definition getOutputPath (cwd : Path.Cwd) (o : Options) (filePath : string)
  : string :=
  if String.eqb (output o) "auto" then filePath ++ ".d.ts"
  else
    let relativePath := Path.relative cwd filePath in
    let outputFileName := relativePath ++ ".d.ts" in
    Path.join (output o) outputFileName.

(* ===================================================================== *)
(** ** Effects: exceptions, the console, the external collaborators        *)
(* ===================================================================== *)

Inductive JsError :=
| TypeError (message : string)
| Error (message : string).

Inductive Result (A : Type) :=
| Ok (a : A)
| Throw (e : JsError).
Arguments Ok {A} a.
Arguments Throw {A} e.

(** What the program prints; [render] gives the text. *)
Inductive Message :=
| MsgUsingGlob (pattern : string)
| MsgFound (n : nat)
| MsgItem (path : string)
| MsgProcessingFile (file : string)
| MsgCompiling (file : string)
| MsgReading (file : string)
| MsgGenerated (file outputPath : string)
| MsgErrorProcessing (file : string)
| MsgSingleFile (file : string)
| MsgWatching (pattern : string)
| MsgCwd (cwd : string)
| MsgWatchPattern (pattern : string)
| MsgInitialFound (n : nat)
| MsgWillWatch (n : nat)
| MsgIgnoreDeletion (file : string)
| MsgRemoved (file typesFile : string).

Definition showNat (n : nat) : string :=
  DecimalString.NilEmpty.string_of_uint (Nat.to_uint n).

Definition dq : string := String (ascii_of_nat 34) "".

Definition render (m : Message) : string :=
  match m with
  | MsgUsingGlob pat => "Using glob pattern: " ++ dq ++ pat ++ dq
  | MsgFound n => "Found " ++ showNat n ++ " matching files:"
  | MsgItem f => "- " ++ f
  | MsgProcessingFile f => "Processing file: " ++ f
  | MsgCompiling f => "Compiling SCSS file: " ++ f
  | MsgReading f => "Reading CSS file: " ++ f
  | MsgGenerated f out => "Generated types for " ++ f ++ " -> " ++ out
  | MsgErrorProcessing f => "Error processing " ++ f ++ ":"
  | MsgSingleFile f => "Processing single file: " ++ f
  | MsgWatching pat => "Watching " ++ pat ++ " for changes..."
  | MsgCwd d => "Current working directory: " ++ d
  | MsgWatchPattern pat => "Watch pattern: " ++ pat
  | MsgInitialFound n =>
      "Found " ++ showNat n ++ " files in initial glob matching"
  | MsgWillWatch n =>
      "Will watch " ++ showNat n ++ " directories based on found files:"
  | MsgIgnoreDeletion f => "Ignoring non-module CSS/SCSS file deletion: " ++ f
  | MsgRemoved f t => "File " ++ f ++ " removed, deleted types file: " ++ t
  end.

Inductive Channel := ConsoleInfo | ConsoleLog | ConsoleError.

(** The calls that leave the program. *)
Inductive Call :=
| CallGlob (pattern : string)
| CallSassCompile (file : string)
| CallReadFile (file : string)
| CallPostcss (css from : string)
| CallMkdir (dir : string)
| CallWriteFile (path content : string)
| CallExists (path : string)
| CallUnlink (path : string).

Inductive Event :=
| Printed (ch : Channel) (m : Message) (attached : option JsError)
| Called (c : Call).

(** The collaborators, over any representation [FS] of the file tree.
    Each may throw.  [postcssModules css from] is the run of postcss with
    the postcss-modules plugin: it answers with [Object.keys(json)], the
    keys handed to the [getJSON] callback. *)
Class Collaborators (FS : Type) := {
  glob : string -> FS -> Result (list string);
  sassCompile : string -> FS -> Result string;
  readFileSync : string -> FS -> Result string;
  postcssModules : string -> string -> FS -> Result (list string);
  mkdirSync : string -> FS -> Result FS;
  writeFileSync : string -> string -> FS -> Result FS;
  existsSync : string -> FS -> bool;
  unlinkSync : string -> FS -> Result FS
}.

(** The state a run threads: the file tree and everything observable that
    happened so far, oldest first. *)
Record World (FS : Type) := {
  fs : FS;
  events : list Event
}.

Definition record {FS} (e : Event) (w : World FS) : World FS :=
  {| fs := fs w; events := events w ++ [e] |}.

(** Computations that read and change the world and may throw. *)
Definition M (FS A : Type) : Type := World FS -> Result A * World FS.

Definition ret {FS A} (a : A) : M FS A := fun w => (Ok a, w).

Definition bind {FS A B} (m : M FS A) (k : A -> M FS B) : M FS B :=
  fun w =>
    match m w with
    | (Ok a, w') => k a w'
    | (Throw e, w') => (Throw e, w')
    end.

Notation "x <- m ;; k" := (bind m (fun x => k))
  (at level 61, m at next level, right associativity).
Notation "m ;;; k" := (bind m (fun _ => k))
  (at level 61, right associativity).

(** [try { body } catch (error) { handler(error) }]. *)
Definition tryCatch {FS A} (body : M FS A) (handler : JsError -> M FS A)
  : M FS A :=
  fun w =>
    match body w with
    | (Ok a, w') => (Ok a, w')
    | (Throw e, w') => handler e w'
    end.

Definition print {FS} (ch : Channel) (m : Message) (att : option JsError)
  : M FS unit :=
  fun w => (Ok tt, record (Printed ch m att) w).

Definition info {FS} (m : Message) : M FS unit := print ConsoleInfo m None.
Definition log {FS} (m : Message) : M FS unit := print ConsoleLog m None.

(** [if (debug) console.info(...)]. *)
Definition whenDebug {FS} (dbg : bool) (m : M FS unit) : M FS unit :=
  if dbg then m else ret tt.

(** A call that only reads the file tree. *)
Definition ask {FS A} (c : Call) (f : FS -> Result A) : M FS A :=
  fun w => (f (fs w), record (Called c) w).

(** A call that changes the file tree; the tree is kept when it throws. *)
Definition change {FS} (c : Call) (f : FS -> Result FS) : M FS unit :=
  fun w =>
    match f (fs w) with
    | Ok fs' => (Ok tt, {| fs := fs'; events := events w ++ [Called c] |})
    | Throw e => (Throw e, record (Called c) w)
    end.

(** [for (const x of xs) await body(x)]. *)
Fixpoint forEach {FS A} (xs : list A) (body : A -> M FS unit) : M FS unit :=
  match xs with
  | [] => ret tt
  | x :: r => body x ;;; forEach r body
  end.

(* ===================================================================== *)
(** ** processFile, generate, processSingleFile                           *)
(* ===================================================================== *)

Section Generator.
Context {FS : Type} `{Collaborators FS}.
Variable cwd : Path.Cwd.

Definition loadCss (o : Options) (filePath : string) : M FS string :=
  let ext := Path.extname filePath in
  if String.eqb ext ".scss" || String.eqb ext ".sass" then
    whenDebug (debug o) (info (MsgCompiling filePath)) ;;;
    ask (CallSassCompile filePath) (sassCompile filePath)
  else
    whenDebug (debug o) (info (MsgReading filePath)) ;;;
    ask (CallReadFile filePath) (readFileSync filePath).

(** The body of [processFile]'s [try]. *)
Definition processFileBody (o : Options) (filePath : string) : M FS unit :=
  whenDebug (debug o) (info (MsgProcessingFile filePath)) ;;;
  css <- loadCss o filePath ;;
  keys <- ask (CallPostcss css filePath) (postcssModules css filePath) ;;
  let classNames := fold_left (fun acc key => setAdd key acc) keys [] in
  let typeDefinition := generateTypeDefinition o classNames in
  let outputPath := getOutputPath cwd o filePath in
  let outputDir := Path.dirname outputPath in
  change (CallMkdir outputDir) (mkdirSync outputDir) ;;;
  change (CallWriteFile outputPath typeDefinition)
         (writeFileSync outputPath typeDefinition) ;;;
  info (MsgGenerated filePath outputPath).

Definition processFile (o : Options) (filePath : string) : M FS unit :=
  tryCatch (processFileBody o filePath)
           (fun error =>
              print ConsoleError (MsgErrorProcessing filePath) (Some error)).

Definition generate (o : Options) : M FS unit :=
  whenDebug (debug o) (info (MsgUsingGlob (pattern o))) ;;;
  files <- ask (CallGlob (pattern o)) (glob (pattern o)) ;;
  whenDebug (debug o)
    (info (MsgFound (length files)) ;;;
     forEach files (fun file => info (MsgItem file))) ;;;
  forEach files (processFile o).

(** [generateCssModuleTypes]. *)
Definition generateCssModuleTypes (options : GeneratorOptions) : M FS unit :=
  generate (construct options).

(** [Omit<GeneratorOptions, 'pattern'>]. *)
Record SingleFileOptions := {
  sf_output : option string;
  sf_watch : option bool;
  sf_exportType : option ExportType;
  sf_nameFormat : option NameFormat;
  sf_debug : option bool
}.

(** [{ pattern: filePath, ...options }]. *)
Definition tempOptions (filePath : string) (options : SingleFileOptions)
  : GeneratorOptions :=
  {| opt_pattern := filePath;
     opt_output := sf_output options;
     opt_watch := sf_watch options;
     opt_exportType := sf_exportType options;
     opt_nameFormat := sf_nameFormat options;
     opt_debug := sf_debug options |}.

Definition processSingleFile (filePath : string) (options : SingleFileOptions)
  : M FS unit :=
  info (MsgSingleFile filePath) ;;;
  generate (construct (tempOptions filePath options)).

End Generator.

(* ===================================================================== *)
(** ** The watch command of cli.ts                                        *)
(* ===================================================================== *)

(** commander's [options] object: a flag that was not given is absent;
    [--export-type] and [--name-format] carry commander defaults, [--output]
    and the boolean flags carry none. *)
Record CliOptions := {
  cli_output : option string;
  cli_watch : option bool;
  cli_exportType : option ExportType;
  cli_nameFormat : option NameFormat;
  cli_debug : option bool
}.

(** The action's [generatorOptions]. *)
Definition generatorOptions (pat : string) (options : CliOptions)
  : GeneratorOptions :=
  {| opt_pattern := pat;
     opt_output := cli_output options;
     opt_watch := cli_watch options;
     opt_exportType := cli_exportType options;
     opt_nameFormat := cli_nameFormat options;
     opt_debug := cli_debug options |}.

(** Truthiness of an optional flag. *)
Definition flag (b : option bool) : bool := orBool b false.

(** [pattern.split('/')[1] || '']. *)
Definition projectDir (pat : string) : string :=
  nth 1 (Js.splitChar Path.slash pat) "".

(** [/\.module\.(?:css|scss|sass)$/i.test(filePath)]. *)
Definition moduleCssFilePattern (filePath : string) : bool :=
  let p := Js.toLowerCase filePath in
  Js.endsWith ".module.css" p || Js.endsWith ".module.scss" p ||
  Js.endsWith ".module.sass" p.

Definition isRootOrDot (p : string) : bool :=
  String.eqb p "." || String.eqb p "/".

(** The [while (parent !== '.' && parent !== '/')] loop of
    [getDirectoriesToWatch]; [fuel] bounds the number of tests of the loop
    condition. *)
Fixpoint addParents (fuel : nat) (includeFilter parent : string)
  (watchDirs : list string) : list string :=
  match fuel with
  | O => watchDirs
  | S fuel' =>
      if isRootOrDot parent then watchDirs
      else
        let parent' := Path.dirname parent in
        let watchDirs' :=
          if negb (Js.truthy includeFilter) || Js.includes includeFilter parent'
          then setAdd parent' watchDirs
          else watchDirs in
        addParents fuel' includeFilter parent' watchDirs'
  end.

(** The body of [for (const file of initialFiles)]. *)
Definition visitFile (includeFilter : string) (watchDirs : list string)
  (file : string) : list string :=
  let dirPath := Path.dirname file in
  addParents (S (String.length dirPath)) includeFilter dirPath
             (setAdd dirPath watchDirs).

Definition collectDirs (includeFilter : string) (initialFiles : list string)
  : list string :=
  fold_left (visitFile includeFilter) initialFiles [].

(** [options.output === 'auto'], where [options.output] may be [undefined]. *)
Definition isAuto (out : option string) : bool :=
  match out with
  | Some s => String.eqb s "auto"
  | None => false
  end.

(** The error of node's argument validation. *)
Definition undefinedPathError : JsError :=
  TypeError ("The " ++ dq ++ "path" ++ dq ++
             " argument must be of type string. Received undefined").

(** [path.join(a, b)] where [a] may be [undefined]: node validates every
    argument and throws on a non-string. *)
Definition pathJoin {FS} (a : option string) (b : string) : M FS string :=
  match a with
  | Some a' => ret (Path.join a' b)
  | None => fun w => (Throw undefinedPathError, w)
  end.

Section Cli.
Context {FS : Type} `{Collaborators FS}.
Variable cwd : Path.Cwd.

Definition getDirectoriesToWatch (pat includeFilter : string) (dbg : bool)
  : M FS (list string) :=
  initialFiles <- ask (CallGlob pat) (glob pat) ;;
  whenDebug dbg (info (MsgInitialFound (length initialFiles))) ;;;
  ret (collectDirs includeFilter initialFiles).

(** The watch branch of the action up to the call of chokidar's [watch]:
    the result is the list of directories the watcher is attached to. *)
Definition startWatch (pat : string) (options : CliOptions)
  : M FS (list string) :=
  log (MsgWatching pat) ;;;
  info (MsgCwd (Path.showAbsolute cwd)) ;;;
  info (MsgWatchPattern pat) ;;;
  generateCssModuleTypes cwd (generatorOptions pat options) ;;;
  dirsToWatch <- getDirectoriesToWatch pat (projectDir pat)
                   (flag (cli_debug options)) ;;
  whenDebug (flag (cli_debug options))
    (info (MsgWillWatch (length dirsToWatch)) ;;;
     forEach dirsToWatch (fun dir => info (MsgItem dir))) ;;;
  ret dirsToWatch.

(** [path.isAbsolute(filePath) ? filePath
      : path.resolve(process.cwd(), filePath)]. *)
Definition absolutePath (filePath : string) : string :=
  if Path.isAbsolute filePath then filePath else Path.resolve cwd filePath.

(** The local [typesFilePath] of the unlink handler. *)
Definition typesFilePath (options : CliOptions) (absoluteFilePath : string)
  : M FS string :=
  if isAuto (cli_output options) then ret (absoluteFilePath ++ ".d.ts")
  else pathJoin (cli_output options)
                (Path.relative cwd absoluteFilePath ++ ".d.ts").

(** [watcher.on('unlink', (filePath) => ...)]. *)
Definition onUnlink (options : CliOptions) (filePath : string) : M FS unit :=
  if negb (moduleCssFilePattern filePath) then
    whenDebug (flag (cli_debug options)) (info (MsgIgnoreDeletion filePath))
  else
    let absoluteFilePath := absolutePath filePath in
    target <- typesFilePath options absoluteFilePath ;;
    fun w =>
      if existsSync target (fs w) then
        (change (CallUnlink target) (unlinkSync target) ;;;
         log (MsgRemoved absoluteFilePath target))
          (record (Called (CallExists target)) w)
      else (Ok tt, record (Called (CallExists target)) w).

End Cli.

(* ===================================================================== *)
(** ** An in-memory file tree, for running the definitions                *)
(* ===================================================================== *)

Module Mem.

(** Files as (path, content) pairs; a file whose content starts with ["!"]
    cannot be read, a path starting with ["/ro/"] cannot be written. *)
Definition Tree := list (string * string).

Fixpoint lookup (p : string) (t : Tree) : option string :=
  match t with
  | [] => None
  | (q, c) :: r => if String.eqb p q then Some c else lookup p r
  end.

Definition remove (p : string) (t : Tree) : Tree :=
  filter (fun e => negb (String.eqb p (fst e))) t.

(** A toy glob: ["*" ++ suffix] selects the paths ending in [suffix], any
    other pattern selects the path equal to it; the empty pattern throws. *)
Definition matches (pat p : string) : bool :=
  match pat with
  | String "*"%char suffix => Js.endsWith suffix p
  | _ => String.eqb pat p
  end.

Definition memGlob (pat : string) (t : Tree) : Result (list string) :=
  match pat with
  | EmptyString => Throw (TypeError "invalid pattern")
  | _ => Ok (map fst (filter (fun e => matches pat (fst e)) t))
  end.

Definition memRead (p : string) (t : Tree) : Result string :=
  match lookup p t with
  | Some (String "!"%char _) => Throw (Error ("EACCES: " ++ p))
  | Some c => Ok c
  | None => Throw (Error ("ENOENT: " ++ p))
  end.

(** A toy class extractor: the css text is a blank-separated list of class
    names; a text containing ["{"] is rejected. *)
Definition memPostcss (css from : string) (_ : Tree) : Result (list string) :=
  if Js.includes "{" css then Throw (Error ("CssSyntaxError: " ++ from))
  else Ok (filter Js.truthy (Js.splitChar " "%char css)).

Definition memWrite (p c : string) (t : Tree) : Result Tree :=
  if Js.startsWith "/ro/" p then Throw (Error ("EROFS: " ++ p))
  else Ok ((p, c) :: remove p t).

Definition memExists (p : string) (t : Tree) : bool :=
  match lookup p t with
  | Some _ => true
  | None => false
  end.

Definition memUnlink (p : string) (t : Tree) : Result Tree :=
  match lookup p t with
  | Some _ => Ok (remove p t)
  | None => Throw (Error ("ENOENT: " ++ p))
  end.

#[global] Instance collaborators : Collaborators Tree := {|
  glob := memGlob;
  sassCompile := memRead;
  readFileSync := memRead;
  postcssModules := memPostcss;
  mkdirSync := fun _ t => Ok t;
  writeFileSync := memWrite;
  existsSync := memExists;
  unlinkSync := memUnlink
|}.

Definition start (t : Tree) : World Tree := {| fs := t; events := [] |}.

Definition noOptions : CliOptions :=
  {| cli_output := None; cli_watch := Some true;
     cli_exportType := Some ExportDefault; cli_nameFormat := Some CamelCase;
     cli_debug := None |}.

Definition namedOptions : Options :=
  construct {| opt_pattern := "*.module.css"; opt_output := None;
               opt_watch := None; opt_exportType := Some ExportNamed;
               opt_nameFormat := None; opt_debug := None |}.

Definition tree3 : Tree :=
  [("a.module.css", "btn btn-primary"); ("b.module.css", "!");
   ("c.module.css", "nav_ITEM nav_ITEM x")].

End Mem.

(* ===================================================================== *)
(** ** Statements of the specification, written from its words            *)
(* ===================================================================== *)

Module Spec.

(** The camelCase rule of the specification.  A segment is a non-empty
    maximal run of characters other than ['-'] and ['_']. *)
Fixpoint segmentsFrom (cur : string) (s : string) : list string :=
  match s with
  | EmptyString => if Js.truthy cur then [cur] else []
  | String c r =>
      if isDelim c
      then (if Js.truthy cur then cur :: segmentsFrom "" r
            else segmentsFrom "" r)
      else segmentsFrom (cur ++ String c "") r
  end.

Definition segments (name : string) : list string := segmentsFrom "" name.

(** A shouty first segment is lower-cased, otherwise only its first
    character is. *)
Definition firstSegment (seg : string) : string :=
  if isShouty seg then Js.mapChars Js.lowerChar seg
  else match seg with
       | EmptyString => ""
       | String c r => String (Js.lowerChar c) r
       end.

(** A later segment gets its first character upper-cased, and the remainder
    lower-cased when the segment is shouty. *)
Definition laterSegment (seg : string) : string :=
  match seg with
  | EmptyString => ""
  | String c r =>
      String (Js.upperChar c)
             (if isShouty seg then Js.mapChars Js.lowerChar r else r)
  end.

Definition convert (segs : list string) : string :=
  match segs with
  | [] => ""
  | s :: later => String.concat "" (firstSegment s :: map laterSegment later)
  end.

Definition quoteIfInvalid (s : string) : string :=
  if isIdentifier s then s else "'" ++ s ++ "'".

(** The rule read for every name, with nothing said about a name that has
    no segment. *)
Definition camelCase (name : string) : string :=
  quoteIfInvalid (convert (segments name)).

(** The standalone declarations of the ['named'] output, one per name. *)
Definition namedDeclarations (o : Options) (classNames : list string)
  : list string :=
  map (fun n => "export declare const " ++ formatClassName o n ++ ": string;")
      classNames.

(** [a] is reached from [d] by taking [path.dirname] one or more times,
    never starting a step from ['.'] or ['/']. *)
Inductive ProperAncestor : string -> string -> Prop :=
| ancestor_parent d :
    isRootOrDot d = false -> ProperAncestor d (Path.dirname d)
| ancestor_further d a :
    isRootOrDot d = false -> ProperAncestor (Path.dirname d) a ->
    ProperAncestor d a.

(** The first path segment of a pattern. *)
Definition firstPathSegment (pat : string) : string :=
  hd "" (Js.splitChar Path.slash pat).

(** The watched set as the specification words it: ['.'] and ['/'] are not
    among the ancestors, and the filter is the pattern's first segment. *)
Definition statedWatched (pat : string) (files : list string) (x : string)
  : Prop :=
  exists f, In f files /\
    (x = Path.dirname f \/
     (ProperAncestor (Path.dirname f) x /\ isRootOrDot x = false /\
      (firstPathSegment pat = "" \/
       Js.includes (firstPathSegment pat) x = true))).

End Spec.

(* ===================================================================== *)
(** ** Observations on a run                                              *)
(* ===================================================================== *)

Definition setExportType (e : ExportType) (o : Options) : Options :=
  {| pattern := pattern o; output := output o; watch := watch o;
     exportType := e; nameFormat := nameFormat o; debug := debug o |}.

Definition setDebug (b : bool) (o : Options) : Options :=
  {| pattern := pattern o; output := output o; watch := watch o;
     exportType := exportType o; nameFormat := nameFormat o; debug := b |}.

(** The calls made to the collaborators, in order. *)
Fixpoint calls (es : list Event) : list Call :=
  match es with
  | [] => []
  | Called c :: r => c :: calls r
  | Printed _ _ _ :: r => calls r
  end.

(** The artifacts handed to [fs.writeFileSync]: target path and content. *)
Fixpoint artifacts (es : list Event) : list (string * string) :=
  match es with
  | [] => []
  | Called (CallWriteFile p c) :: r => (p, c) :: artifacts r
  | _ :: r => artifacts r
  end.

(** The lines printed only under [debug] by index.ts. *)
Definition diagnostic (e : Event) : bool :=
  match e with
  | Printed ConsoleInfo (MsgUsingGlob _) None
  | Printed ConsoleInfo (MsgFound _) None
  | Printed ConsoleInfo (MsgItem _) None
  | Printed ConsoleInfo (MsgProcessingFile _) None
  | Printed ConsoleInfo (MsgCompiling _) None
  | Printed ConsoleInfo (MsgReading _) None => true
  | _ => false
  end.

Definition observable (es : list Event) : list Event :=
  filter (fun e => negb (diagnostic e)) es.

(** How each processed file ended: [(file, true)] for a written artifact,
    [(file, false)] for a reported failure. *)
Fixpoint outcomes (es : list Event) : list (string * bool) :=
  match es with
  | [] => []
  | Printed ConsoleInfo (MsgGenerated f _) _ :: r => (f, true) :: outcomes r
  | Printed ConsoleError (MsgErrorProcessing f) _ :: r =>
      (f, false) :: outcomes r
  | _ :: r => outcomes r
  end.

(** The failures reported on the console: file and error. *)
Fixpoint reported (es : list Event) : list (string * JsError) :=
  match es with
  | [] => []
  | Printed ConsoleError (MsgErrorProcessing f) (Some e) :: r =>
      (f, e) :: reported r
  | _ :: r => reported r
  end.

(** What the stages of [processFile]'s [try] come to on a file tree: the
    tree after the write, or the first failure. *)
Definition loadResult {FS} `{Collaborators FS} (filePath : string) (t : FS)
  : Result string :=
  let ext := Path.extname filePath in
  if String.eqb ext ".scss" || String.eqb ext ".sass"
  then sassCompile filePath t else readFileSync filePath t.

Definition classNamesOf (keys : list string) : list string :=
  fold_left (fun acc key => setAdd key acc) keys [].

Definition pipelineResult {FS} `{Collaborators FS} (cwd : Path.Cwd)
  (o : Options) (filePath : string) (t : FS) : Result FS :=
  match loadResult filePath t with
  | Throw e => Throw e
  | Ok css =>
      match postcssModules css filePath t with
      | Throw e => Throw e
      | Ok keys =>
          let outputPath := getOutputPath cwd o filePath in
          match mkdirSync (Path.dirname outputPath) t with
          | Throw e => Throw e
          | Ok t1 =>
              writeFileSync outputPath
                (generateTypeDefinition o (classNamesOf keys)) t1
          end
      end
  end.

(** The world in which the loop of [generate] starts, after discovery. *)
Definition afterDiscovery {FS} (o : Options) (files : list string) (w : World FS)
  : World FS :=
  {| fs := fs w;
     events :=
       events w ++
       (if debug o then [Printed ConsoleInfo (MsgUsingGlob (pattern o)) None]
        else []) ++
       [Called (CallGlob (pattern o))] ++
       (if debug o
        then Printed ConsoleInfo (MsgFound (length files)) None ::
             map (fun f => Printed ConsoleInfo (MsgItem f) None) files
        else []) |}.

(** Two worlds that differ in diagnostic lines only. *)
Definition sameButDiagnostics {FS} (w1 w2 : World FS) : Prop :=
  fs w1 = fs w2 /\ observable (events w1) = observable (events w2).

(** The test [!includeFilter || parent.includes(includeFilter)]. *)
Definition passesFilter (includeFilter parent : string) : bool :=
  negb (Js.truthy includeFilter) || Js.includes includeFilter parent.

(** The world after the three lines the watch branch prints first. *)
Definition afterBanner {FS} (cwd : Path.Cwd) (pat : string) (w : World FS)
  : World FS :=
  record (Printed ConsoleInfo (MsgWatchPattern pat) None)
    (record (Printed ConsoleInfo (MsgCwd (Path.showAbsolute cwd)) None)
       (record (Printed ConsoleLog (MsgWatching pat) None) w)).

(** Components of the paths the path lemmas are about. *)
Definition noSlash (c : string) : bool :=
  Js.allChars (fun x => negb (Ascii.eqb x Path.slash)) c.

(** A component a directory entry can have: not empty, not ["."], not
    [".."], no slash. *)
Definition plain (c : string) : bool :=
  negb (String.eqb c "") && negb (String.eqb c ".") &&
  negb (String.eqb c "..") && noSlash c.

(* ===================================================================== *)
(** ** The change and add handlers of cli.ts                              *)
(* ===================================================================== *)

(** The lines the two handlers print themselves. *)
Inductive WatchLine :=
| LineIgnored (file : string)
| LineRawChange (file : string)
| LineRawAdd (file : string)
| LineExists (answer : bool)
| LineResolved (absolute : string)
| LineAbsoluteExists (answer : bool)
| LineChanged (absolute : string)
| LineAdded (absolute : string).

Definition showBool (b : bool) : string := if b then "true" else "false".

Definition renderLine (l : WatchLine) : string :=
  match l with
  | LineIgnored f => "Ignoring non-module CSS/SCSS file: " ++ f
  | LineRawChange f => "Raw change event path: " ++ f
  | LineRawAdd f => "Raw add event path: " ++ f
  | LineExists b => "File exists check: " ++ showBool b
  | LineResolved a => "Resolved absolute path: " ++ a
  | LineAbsoluteExists b => "Absolute path exists check: " ++ showBool b
  | LineChanged a => "File " ++ a ++ " changed, regenerating types..."
  | LineAdded a => "File " ++ a ++ " added, generating types..."
  end.

(** What a handler leaves behind, oldest first: its own lines, and the
    events of the generator it runs. *)
Inductive WatchEvent :=
| HandlerPrinted (ch : Channel) (l : WatchLine)
| Inner (e : Event).

Record WatchWorld (FS : Type) := {
  wfs : FS;
  wevents : list WatchEvent
}.

Definition WM (FS A : Type) : Type :=
  WatchWorld FS -> Result A * WatchWorld FS.

Definition wret {FS A} (a : A) : WM FS A := fun w => (Ok a, w).

Definition wbind {FS A B} (m : WM FS A) (k : A -> WM FS B) : WM FS B :=
  fun w =>
    match m w with
    | (Ok a, w') => k a w'
    | (Throw e, w') => (Throw e, w')
    end.

Definition wprint {FS} (ch : Channel) (l : WatchLine) : WM FS unit :=
  fun w => (Ok tt, {| wfs := wfs w;
                      wevents := wevents w ++ [HandlerPrinted ch l] |}).

(** [fs.existsSync(path)] inside a handler. *)
Definition wexists {FS} `{Collaborators FS} (path : string) : WM FS bool :=
  fun w => (Ok (existsSync path (wfs w)),
            {| wfs := wfs w;
               wevents := wevents w ++ [Inner (Called (CallExists path))] |}).

(** A run of the generator inside a handler: it starts on the handler's
    file tree, and what it prints and calls is appended to what the handler
    did before. *)
Definition runGenerator {FS A} (m : M FS A) : WM FS A :=
  fun w =>
    let '(r, w') := m {| fs := wfs w; events := [] |} in
    (r, {| wfs := fs w'; wevents := wevents w ++ map Inner (events w') |}).

(** [const { pattern, ...otherOptions } = generatorOptions]. *)
Definition otherOptions (options : CliOptions) : SingleFileOptions :=
  {| sf_output := cli_output options;
     sf_watch := cli_watch options;
     sf_exportType := cli_exportType options;
     sf_nameFormat := cli_nameFormat options;
     sf_debug := cli_debug options |}.

Section Handlers.
Context {FS : Type} `{Collaborators FS}.
Variable cwd : Path.Cwd.

(** [watcher.on('change', async (filePath) => ...)]. *)
Definition onChange (options : CliOptions) (filePath : string) : WM FS unit :=
  if negb (moduleCssFilePattern filePath) then
    if flag (cli_debug options)
    then wprint ConsoleInfo (LineIgnored filePath)
    else wret tt
  else
    wbind (if flag (cli_debug options)
           then wbind (wprint ConsoleInfo (LineRawChange filePath)) (fun _ =>
                wbind (wexists filePath) (fun answer =>
                wprint ConsoleInfo (LineExists answer)))
           else wret tt) (fun _ =>
    let absoluteFilePath := absolutePath cwd filePath in
    wbind (if flag (cli_debug options)
           then wbind (wprint ConsoleInfo (LineResolved absoluteFilePath))
                  (fun _ =>
                wbind (wexists absoluteFilePath) (fun answer =>
                wprint ConsoleInfo (LineAbsoluteExists answer)))
           else wret tt) (fun _ =>
    wbind (wprint ConsoleLog (LineChanged absoluteFilePath)) (fun _ =>
    runGenerator
      (processSingleFile cwd absoluteFilePath (otherOptions options))))).

(** [watcher.on('add', async (filePath) => ...)]. *)
Definition onAdd (options : CliOptions) (filePath : string) : WM FS unit :=
  if negb (moduleCssFilePattern filePath) then
    if flag (cli_debug options)
    then wprint ConsoleInfo (LineIgnored filePath)
    else wret tt
  else
    wbind (if flag (cli_debug options)
           then wbind (wprint ConsoleInfo (LineRawAdd filePath)) (fun _ =>
                wbind (wexists filePath) (fun answer =>
                wprint ConsoleInfo (LineExists answer)))
           else wret tt) (fun _ =>
    let absoluteFilePath := absolutePath cwd filePath in
    wbind (if flag (cli_debug options)
           then wbind (wprint ConsoleInfo (LineResolved absoluteFilePath))
                  (fun _ =>
                wbind (wexists absoluteFilePath) (fun answer =>
                wprint ConsoleInfo (LineAbsoluteExists answer)))
           else wret tt) (fun _ =>
    wbind (wprint ConsoleLog (LineAdded absoluteFilePath)) (fun _ =>
    runGenerator
      (processSingleFile cwd absoluteFilePath (otherOptions options))))).

End Handlers.

(** The calls among the events of a handler. *)
Fixpoint watchCalls (es : list WatchEvent) : list Call :=
  match es with
  | [] => []
  | Inner (Called c) :: r => c :: watchCalls r
  | _ :: r => watchCalls r
  end.

(** The artifacts handed to [fs.writeFileSync] during a handler. *)
Fixpoint watchArtifacts (es : list WatchEvent) : list (string * string) :=
  match es with
  | [] => []
  | Inner (Called (CallWriteFile p c)) :: r => (p, c) :: watchArtifacts r
  | _ :: r => watchArtifacts r
  end.

(* ===================================================================== *)
(** ** Further notions used by the properties                             *)
(* ===================================================================== *)

(** Resolved options read back as given options
    ([Required<GeneratorOptions>] is a [GeneratorOptions]). *)
Definition asGiven (o : Options) : GeneratorOptions :=
  {| opt_pattern := pattern o;
     opt_output := Some (output o);
     opt_watch := Some (watch o);
     opt_exportType := Some (exportType o);
     opt_nameFormat := Some (nameFormat o);
     opt_debug := Some (debug o) |}.

(** No character of [s] is ['-'] or ['_']. *)
Definition delimFree (s : string) : bool :=
  Js.allChars (fun c => negb (isDelim c)) s.

(** Every character of [s] is ['-'] or ['_']. *)
Definition onlyDelims (s : string) : bool := Js.allChars isDelim s.


(** A quoted string-literal key. *)
Definition isQuoted (s : string) : Prop := exists body, s = quote body.

(** Every character of [s] is an ASCII character (code below 128): the
    strings on which [Js.toLowerCase] and [Js.toUpperCase] are JavaScript's
    [toLowerCase] and [toUpperCase]. *)
Definition isAscii (s : string) : bool :=
  Js.allChars (fun c => (Js.code c <? 128)%nat) s.

(** A character that may stand as it is between single quotes: no single
    quote, no backslash, no line feed, no carriage return. *)
Definition safeChar (c : ascii) : bool :=
  negb (Ascii.eqb c "'"%char || Ascii.eqb c "\"%char ||
        Ascii.eqb c (ascii_of_nat 10) || Ascii.eqb c (ascii_of_nat 13)).

Definition literalSafe (s : string) : bool := Js.allChars safeChar s.

(** The artifacts of a batch over [files], in order: [None] for a file that
    got none, [Some text] for a file whose artifact is [text]. *)
Definition writtenArtifacts (cwd : Path.Cwd) (o : Options)
  (files : list string) (contents : list (option string))
  : list (string * string) :=
  flat_map (fun fc =>
              match snd fc with
              | Some text => [(getOutputPath cwd o (fst fc), text)]
              | None => []
              end)
           (combine files contents).

(** The calls [processFile] can make. *)
Definition pipelineCall (c : Call) : bool :=
  match c with
  | CallSassCompile _ | CallReadFile _ | CallPostcss _ _
  | CallMkdir _ | CallWriteFile _ _ => true
  | CallGlob _ | CallExists _ | CallUnlink _ => false
  end.

(** No character of [s] is [sep]. *)
Definition freeOf (sep : ascii) (s : string) : bool :=
  Js.allChars (fun x => negb (Ascii.eqb x sep)) s.

(** The line feed as a character. *)
Definition lineFeed : ascii := ascii_of_nat 10.

(** The lines of a text. *)
Definition lines (text : string) : list string := Js.splitChar lineFeed text.

(* ===================================================================== *)
(** * Properties                                                          *)
(* ===================================================================== *)

Unset Implicit Arguments.

(** ** Strings *)

Lemma append_nil_r (s : string) : s ++ "" = s.
Proof. induction s as [|c s IH]; simpl; [reflexivity | now rewrite IH]. Qed.

Lemma append_assoc (a b c : string) : (a ++ b) ++ c = a ++ (b ++ c).
Proof. induction a as [|x a IH]; simpl; [reflexivity | now rewrite IH]. Qed.

Lemma join_is_concat (sep : string) (xs : list string) :
  Js.join sep xs = String.concat sep xs.
Proof.
  induction xs as [|x r IH]; [reflexivity|].
  destruct r as [|y r']; [reflexivity|].
  change (x ++ sep ++ Js.join sep (y :: r') = x ++ sep ++ String.concat sep (y :: r')).
  now rewrite IH.
Qed.

Lemma startsWith_refl_app (p b : string) : Js.startsWith p (p ++ b) = true.
Proof.
  induction p as [|c p IH]; simpl; [reflexivity|].
  now rewrite Ascii.eqb_refl, IH.
Qed.

Lemma includes_here (p b : string) : Js.includes p (p ++ b) = true.
Proof.
  destruct (p ++ b) eqn:E; simpl; rewrite <- E, startsWith_refl_app; reflexivity.
Qed.

Lemma includes_skip (p a s : string) :
  Js.includes p s = true -> Js.includes p (a ++ s) = true.
Proof.
  intros Hs. induction a as [|c a IH]; simpl; [exact Hs|].
  rewrite IH. apply orb_true_r.
Qed.

Lemma startsWith_extend (p s b : string) :
  Js.startsWith p s = true -> Js.startsWith p (s ++ b) = true.
Proof.
  revert s. induction p as [|c p IH]; intros s Hs; simpl; [reflexivity|].
  destruct s as [|d s]; simpl in *; [discriminate|].
  apply andb_true_iff in Hs as [Hc Hp].
  now rewrite Hc, (IH _ Hp).
Qed.

Lemma includes_extend (p s b : string) :
  Js.includes p s = true -> Js.includes p (s ++ b) = true.
Proof.
  induction s as [|c s IH]; intros Hs.
  - simpl in Hs. rewrite orb_false_r in Hs.
    destruct p; [|discriminate]. destruct b; reflexivity.
  - simpl in Hs. apply orb_true_iff in Hs as [Hs|Hs].
    + change (Js.includes p (String c (s ++ b)) = true).
      simpl. change (String c (s ++ b)) with (String c s ++ b).
      rewrite (startsWith_extend _ _ _ Hs). reflexivity.
    + change (Js.includes p (String c (s ++ b)) = true).
      simpl. rewrite (IH Hs). apply orb_true_r.
Qed.

(** A piece of text between any two others is included in the whole. *)
Lemma includes_middle (p a b : string) : Js.includes p (a ++ p ++ b) = true.
Proof. apply includes_skip, includes_here. Qed.

Lemma includes_join (sep x : string) (xs : list string) :
  In x xs -> Js.includes x (Js.join sep xs) = true.
Proof.
  induction xs as [|y r IH]; intros Hin; [contradiction|].
  destruct r as [|z r'].
  - destruct Hin as [->|[]]. rewrite <- (append_nil_r x) at 2.
    apply includes_here.
  - change (Js.join sep (y :: z :: r')) with (y ++ sep ++ Js.join sep (z :: r')).
    destruct Hin as [->|Hin].
    + apply includes_here.
    + apply includes_skip, includes_skip, IH, Hin.
Qed.

(** ** formatClassName *)

Lemma splitRuns_segments (s : string) :
  (forall cur, filter Js.truthy (splitRuns false cur s) = Spec.segmentsFrom cur s)
  /\ filter Js.truthy (splitRuns true "" s) = Spec.segmentsFrom "" s.
Proof.
  induction s as [|c r [IH1 IH2]]; split; try intros cur; simpl.
  - destruct cur; reflexivity.
  - reflexivity.
  - destruct (isDelim c); simpl.
    + rewrite IH2. destruct cur; reflexivity.
    + apply IH1.
  - destruct (isDelim c); simpl.
    + apply IH2.
    + apply IH1.
Qed.

Lemma parts_are_segments (name : string) :
  filter Js.truthy (splitDelims name) = Spec.segments name.
Proof. apply (proj1 (splitRuns_segments name)). Qed.

Lemma camelFirst_spec (part : string) :
  camelFirst part = Spec.firstSegment part.
Proof.
  unfold camelFirst, Spec.firstSegment.
  destruct (isShouty part); [reflexivity|].
  destruct part; reflexivity.
Qed.

Lemma camelRest_spec (part : string) :
  camelRest part = Spec.laterSegment part.
Proof.
  unfold camelRest, Spec.laterSegment.
  destruct part as [|c r]; [destruct (isShouty ""); reflexivity|].
  destruct (isShouty (String c r)); reflexivity.
Qed.

Lemma camelParts_spec (parts : list string) :
  Js.join "" (camelParts parts) = Spec.convert parts.
Proof.
  destruct parts as [|p ps]; [reflexivity|].
  unfold camelParts, Spec.convert.
  rewrite join_is_concat, camelFirst_spec.
  f_equal. f_equal. apply map_ext, camelRest_spec.
Qed.

Lemma formatCamelCase_spec (name : string) :
  formatCamelCase name =
  match Spec.segments name with
  | [] => name
  | _ :: _ => Spec.camelCase name
  end.
Proof.
  unfold formatCamelCase, Spec.camelCase, Spec.quoteIfInvalid, quote.
  rewrite parts_are_segments.
  destruct (Spec.segments name) as [|p ps] eqn:E; [reflexivity|].
  rewrite camelParts_spec. reflexivity.
Qed.

(** The segments are what the specification says they are: none is empty,
    none holds a delimiter. *)
Lemma segmentsFrom_clean (s cur : string) :
  Js.allChars (fun c => negb (isDelim c)) cur = true ->
  Forall (fun seg => Js.truthy seg = true /\
                     Js.allChars (fun c => negb (isDelim c)) seg = true)
         (Spec.segmentsFrom cur s).
Proof.
  assert (Happ : forall a c, Js.allChars (fun c => negb (isDelim c)) a = true ->
            isDelim c = false ->
            Js.allChars (fun c => negb (isDelim c)) (a ++ String c "") = true).
  { induction a as [|x a IH]; intros c Ha Hc; simpl in *.
    - now rewrite Hc.
    - apply andb_true_iff in Ha as [Hx Ha]. now rewrite Hx, (IH _ Ha Hc). }
  revert cur. induction s as [|c r IH]; intros cur Hcur; simpl.
  - destruct cur; simpl; constructor; auto.
  - destruct (isDelim c) eqn:Hc.
    + destruct cur as [|x cur']; simpl.
      * apply IH. reflexivity.
      * constructor; [split; [reflexivity | exact Hcur]|].
        apply IH. reflexivity.
    + apply IH. apply Happ; assumption.
Qed.

(** C1, as the code has it: under camelCase a name of ASCII characters
    with at least one segment is formatted by the stated rule (segments
    split on runs of the delimiters, case rule per segment, concatenation,
    quoting of an invalid identifier), a name without any segment is
    returned unchanged, and the five named examples come out as listed.
    The name is taken in ASCII, where the case mappings of this file are
    those of JavaScript. *)
Theorem C1_camelCase_rule (o : Options) (name : string)
  (Hfmt : nameFormat o = CamelCase)
  (Hascii : isAscii name = true) :
  formatClassName o name =
    match Spec.segments name with
    | [] => name
    | _ :: _ => Spec.camelCase name
    end
  /\ formatClassName o "button-primary" = "buttonPrimary"
  /\ formatClassName o "BUTTON_PRIMARY" = "buttonPrimary"
  /\ formatClassName o "nav_ITEM" = "navItem"
  /\ formatClassName o "123-invalid" = "'123Invalid'"
  /\ formatClassName o "button--state-success" = "buttonStateSuccess".
Proof.
  unfold formatClassName. rewrite Hfmt.
  split; [apply formatCamelCase_spec|].
  repeat split; vm_compute; reflexivity.
Qed.

Lemma C1_camelCase_rule_witness :
  nameFormat (defaults "*.css") = CamelCase /\
  isAscii "nav_ITEM" = true /\
  formatClassName (defaults "*.css") "nav_ITEM" = Spec.camelCase "nav_ITEM" /\
  formatClassName (defaults "*.css") "nav_ITEM" = "navItem".
Proof.
  split; [reflexivity|]. split; [reflexivity|].
  pose proof (C1_camelCase_rule (defaults "*.css") "nav_ITEM"
                eq_refl eq_refl) as [Hrule [_ [_ [Hnav _]]]].
  split; [exact Hrule | exact Hnav].
Defined.

(** C1 as stated fails: the one-character class name [_] has no segment;
    the stated rule would give the quoted empty string, the code returns
    the name itself. *)
Lemma C1_counterexample :
  formatClassName (defaults "*.css") "_" = "_" /\
  Spec.camelCase "_" = "''" /\
  formatClassName (defaults "*.css") "_" <> Spec.camelCase "_".
Proof.
  split; [reflexivity|]. split; [reflexivity|].
  vm_compute. discriminate.
Qed.

(** ** generateTypeDefinition *)

Lemma formatClassName_setExportType (e : ExportType) (o : Options) (n : string) :
  formatClassName (setExportType e o) n = formatClassName o n.
Proof. reflexivity. Qed.

Lemma generate_default_text (o : Options) (classNames : list string) :
  generateTypeDefinition (setExportType ExportDefault o) classNames =
  defaultBlock (map (formatClassName o) classNames).
Proof. reflexivity. Qed.

Lemma generate_named_text (o : Options) (classNames : list string) :
  generateTypeDefinition (setExportType ExportNamed o) classNames =
  Js.join nl (map namedLine (map (formatClassName o) classNames)).
Proof. reflexivity. Qed.

(** The ['both'] text is the ['default'] text followed by an empty line and
    the [export const] lines. *)
Lemma generate_both_text (o : Options) (classNames : list string) :
  generateTypeDefinition (setExportType ExportBoth o) classNames =
  defaultBlock (map (formatClassName o) classNames) ++
  (nl ++ Js.join nl (map constLine (map (formatClassName o) classNames)) ++ nl).
Proof.
  unfold generateTypeDefinition, defaultBlock.
  cbn [exportType setExportType].
  change (map (formatClassName (setExportType ExportBoth o)) classNames)
    with (map (formatClassName o) classNames).
  generalize (classNamesType (map (formatClassName o) classNames)) as body.
  generalize (Js.join nl (map constLine (map (formatClassName o) classNames)))
    as tail.
  intros tail body.
  rewrite !append_assoc. reflexivity.
Qed.

(** C2, as the code has it: the ['both'] text starts with the whole
    ['default'] text, and for every class name it holds the standalone
    declaration [export const N: string;], which is the declaration of the
    ['named'] text for that name, [export declare const N: string;], without
    its [declare] modifier. *)
Theorem C2_both_extends_default (o : Options) (classNames : list string) :
  let both := generateTypeDefinition (setExportType ExportBoth o) classNames in
  let dflt := generateTypeDefinition (setExportType ExportDefault o) classNames in
  let named := generateTypeDefinition (setExportType ExportNamed o) classNames in
  (exists rest, both = dflt ++ rest) /\
  Js.includes dflt both = true /\
  forall n, In n classNames ->
    Js.includes ("export declare const " ++ formatClassName o n ++ ": string;")
                named = true /\
    Js.includes ("export const " ++ formatClassName o n ++ ": string;")
                both = true.
Proof.
  cbv zeta.
  rewrite generate_both_text, generate_default_text, generate_named_text.
  split; [eexists; reflexivity|].
  split; [apply includes_here|].
  intros n Hn. split.
  - apply includes_join.
    apply (in_map namedLine), (in_map (formatClassName o)), Hn.
  - apply includes_skip, includes_skip, includes_extend, includes_join.
    apply (in_map constLine), (in_map (formatClassName o)), Hn.
Qed.

(** C2 as stated fails: the declaration of the ['named'] text for the class
    [test] is not part of the ['both'] text. *)
Lemma C2_counterexample :
  let o := defaults "*.css" in
  let declaration := "export declare const test: string;" in
  In declaration (Spec.namedDeclarations o ["test"]) /\
  Js.includes declaration
    (generateTypeDefinition (setExportType ExportNamed o) ["test"]) = true /\
  Js.includes declaration
    (generateTypeDefinition (setExportType ExportBoth o) ["test"]) = false.
Proof.
  cbv zeta. split; [left; reflexivity|].
  split; vm_compute; reflexivity.
Qed.

Lemma classNamesType_not_empty (formatted : list string) :
  classNamesType formatted <> "".
Proof.
  destruct formatted as [|x r]; [discriminate|].
  destruct r; discriminate.
Qed.

(** C5: for the empty class-name set the ['default'] and the ['both'] texts
    have the index signature as the only member of the interface, where the
    per-name members would stand; the interface body is never the empty
    string, whatever the class names. *)
Theorem C5_empty_set_fallback (o : Options) :
  generateTypeDefinition (setExportType ExportDefault o) [] =
    "export interface CssModuleClasses {" ++ nl ++
    "  readonly [key: string]: string;" ++ nl ++
    "}" ++ nl ++ nl ++
    "export type ClassNames = keyof CssModuleClasses;" ++ nl ++ nl ++
    "declare const classes: CssModuleClasses;" ++ nl ++
    "export default classes;" ++ nl
  /\ generateTypeDefinition (setExportType ExportBoth o) [] =
    "export interface CssModuleClasses {" ++ nl ++
    "  readonly [key: string]: string;" ++ nl ++
    "}" ++ nl ++ nl ++
    "export type ClassNames = keyof CssModuleClasses;" ++ nl ++ nl ++
    "declare const classes: CssModuleClasses;" ++ nl ++
    "export default classes;" ++ nl ++ nl ++ nl
  /\ Js.includes "readonly [key: string]: string;"
       (generateTypeDefinition (setExportType ExportDefault o) []) = true
  /\ Js.includes "readonly [key: string]: string;"
       (generateTypeDefinition (setExportType ExportBoth o) []) = true
  /\ classNamesType (map (formatClassName o) []) =
       "  readonly [key: string]: string;"
  /\ forall classNames,
       classNamesType (map (formatClassName o) classNames) <> "".
Proof.
  repeat split; try reflexivity.
  intros classNames. apply classNamesType_not_empty.
Qed.

(** ** node:path on plain components *)

Lemma splitChar_noSlash (c : string) :
  noSlash c = true -> Js.splitChar Path.slash c = [c].
Proof.
  induction c as [|x c IH]; intros Hc; [reflexivity|].
  simpl in Hc. apply andb_true_iff in Hc as [Hx Hc].
  simpl. apply negb_true_iff in Hx. rewrite Hx, (IH Hc). reflexivity.
Qed.

Lemma splitChar_component (c r : string) :
  noSlash c = true ->
  Js.splitChar Path.slash (c ++ "/" ++ r) = c :: Js.splitChar Path.slash r.
Proof.
  induction c as [|x c IH]; intros Hc; [reflexivity|].
  simpl in Hc. apply andb_true_iff in Hc as [Hx Hc].
  apply negb_true_iff in Hx.
  change (String x c ++ "/" ++ r) with (String x (c ++ "/" ++ r)).
  cbn [Js.splitChar]. rewrite Hx, (IH Hc). reflexivity.
Qed.

Lemma splitChar_join (comps : list string) :
  comps <> [] -> forallb noSlash comps = true ->
  Js.splitChar Path.slash (Js.join "/" comps) = comps.
Proof.
  induction comps as [|c r IH]; intros Hne Hall; [congruence|].
  cbn [forallb] in Hall. apply andb_true_iff in Hall as [Hc Hr].
  destruct r as [|d r'].
  - apply splitChar_noSlash, Hc.
  - change (Js.join "/" (c :: d :: r')) with (c ++ "/" ++ Js.join "/" (d :: r')).
    rewrite (splitChar_component _ _ Hc), IH; [reflexivity | discriminate | exact Hr].
Qed.

Lemma plain_noSlash (c : string) : plain c = true -> noSlash c = true.
Proof. unfold plain. intros H. now apply andb_true_iff in H as [_ H]. Qed.

Lemma forallb_plain_noSlash (l : list string) :
  forallb plain l = true -> forallb noSlash l = true.
Proof.
  induction l as [|c r IH]; [reflexivity|]. cbn [forallb].
  intros H. apply andb_true_iff in H as [Hc Hr].
  now rewrite (plain_noSlash _ Hc), (IH Hr).
Qed.

Lemma normStep_plain (b : bool) (acc : list string) (c : string) :
  plain c = true -> Path.normStep b acc c = c :: acc.
Proof.
  unfold plain, Path.normStep. intros H.
  apply andb_true_iff in H as [H _].
  apply andb_true_iff in H as [H H2].
  apply andb_true_iff in H as [H0 H1].
  apply negb_true_iff in H0, H1, H2.
  now rewrite H0, H1, H2.
Qed.

Lemma fold_normStep_plain (b : bool) (comps acc : list string) :
  forallb plain comps = true ->
  fold_left (Path.normStep b) comps acc = (List.rev comps ++ acc)%list.
Proof.
  revert acc. induction comps as [|c r IH]; intros acc Hall; [reflexivity|].
  cbn [forallb] in Hall. apply andb_true_iff in Hall as [Hc Hr].
  cbn [fold_left List.rev]. rewrite (normStep_plain _ _ _ Hc), (IH _ Hr).
  now rewrite <- app_assoc.
Qed.

(** Normalizing a path made of plain components appends them. *)
Lemma normalizeFrom_plain (b : bool) (start comps : list string) :
  comps <> [] -> forallb plain comps = true ->
  Path.normalizeFrom b start (Js.join "/" comps) = (start ++ comps)%list.
Proof.
  intros Hne Hall. unfold Path.normalizeFrom.
  rewrite (splitChar_join _ Hne (forallb_plain_noSlash _ Hall)).
  rewrite (fold_normStep_plain _ _ _ Hall).
  now rewrite rev_app_distr, !rev_involutive.
Qed.

Lemma stripCommon_prefix (cwd rest : list string) :
  Path.stripCommon cwd (cwd ++ rest) = ([], rest).
Proof.
  induction cwd as [|c cwd IH]; [destruct rest; reflexivity|].
  cbn [Path.stripCommon app]. now rewrite String.eqb_refl.
Qed.

Lemma plain_head (c r : string) :
  plain c = true -> exists x t, c ++ r = String x t /\ Ascii.eqb x Path.slash = false.
Proof.
  destruct c as [|x c]; [discriminate|].
  intros H. apply plain_noSlash in H. simpl in H.
  apply andb_true_iff in H as [Hx _]. apply negb_true_iff in Hx.
  exists x, (c ++ r). split; [reflexivity | exact Hx].
Qed.

Lemma join_head (c : string) (r : list string) :
  exists t, Js.join "/" (c :: r) = c ++ t.
Proof.
  destruct r as [|d r'].
  - exists "". now rewrite append_nil_r.
  - eexists. reflexivity.
Qed.

Lemma isAbsolute_join_plain (c : string) (r : list string) :
  plain c = true -> Path.isAbsolute (Js.join "/" (c :: r)) = false.
Proof.
  intros Hc. destruct (join_head c r) as [t ->].
  destruct (plain_head _ t Hc) as (x & u & -> & Hx).
  unfold Path.isAbsolute. cbn [Js.startsWith].
  rewrite Ascii.eqb_sym. fold Path.slash. now rewrite Hx.
Qed.

(** A relative path of plain components is its own path relative to the
    working directory, whatever that directory is. *)
Lemma relative_plain (cwd : Path.Cwd) (comps : list string) :
  comps <> [] -> forallb plain comps = true ->
  Path.relative cwd (Js.join "/" comps) = Js.join "/" comps.
Proof.
  intros Hne Hall. unfold Path.relative, Path.resolveComps.
  destruct comps as [|c r]; [congruence|].
  assert (Hc : plain c = true).
  { cbn [forallb] in Hall. now apply andb_true_iff in Hall as [Hc _]. }
  rewrite (isAbsolute_join_plain _ r Hc).
  rewrite (normalizeFrom_plain _ _ _ Hne Hall), stripCommon_prefix.
  reflexivity.
Qed.

Lemma join_nonempty (c : string) (r : list string) :
  plain c = true -> Js.join "/" (c :: r) <> "".
Proof.
  intros Hc. destruct (join_head c r) as [t ->].
  destruct (plain_head _ t Hc) as (x & u & -> & _). discriminate.
Qed.

Lemma join_app (l1 l2 : list string) :
  l1 <> [] -> l2 <> [] ->
  Js.join "/" (l1 ++ l2) = Js.join "/" l1 ++ "/" ++ Js.join "/" l2.
Proof.
  intros H1 H2. induction l1 as [|c r IH]; [congruence|].
  destruct r as [|d r'].
  - destruct l2 as [|e l2']; [congruence | reflexivity].
  - change (Js.join "/" ((c :: d :: r') ++ l2))
      with (c ++ "/" ++ Js.join "/" ((d :: r') ++ l2)).
    rewrite IH by discriminate.
    change (Js.join "/" (c :: d :: r')) with (c ++ "/" ++ Js.join "/" (d :: r')).
    now rewrite !append_assoc.
Qed.

Lemma join_snoc_suffix (dirs : list string) (base suffix : string) :
  Js.join "/" (dirs ++ [base]) ++ suffix = Js.join "/" (dirs ++ [base ++ suffix]).
Proof.
  induction dirs as [|d r IH]; [reflexivity|].
  destruct r as [|e r'].
  - cbn [app Js.join]. now rewrite !append_assoc.
  - change (Js.join "/" ((d :: e :: r') ++ [base]))
      with (d ++ "/" ++ Js.join "/" ((e :: r') ++ [base])).
    change (Js.join "/" ((d :: e :: r') ++ [base ++ suffix]))
      with (d ++ "/" ++ Js.join "/" ((e :: r') ++ [base ++ suffix])).
    rewrite <- IH. now rewrite !append_assoc.
Qed.

Lemma rev_app (a b : string) : Js.rev (a ++ b) = Js.rev b ++ Js.rev a.
Proof.
  induction a as [|x a IH]; simpl; [now rewrite append_nil_r|].
  now rewrite IH, append_assoc.
Qed.

Lemma rev_nonempty (s : string) : s <> "" -> Js.rev s <> "".
Proof.
  destruct s as [|x s]; [congruence|]. intros _. simpl.
  destruct (Js.rev s); discriminate.
Qed.

Lemma endsWith_slash_app (a b : string) :
  b <> "" -> Js.endsWith "/" (a ++ b) = Js.endsWith "/" b.
Proof.
  intros Hb. unfold Js.endsWith. rewrite rev_app.
  destruct (Js.rev b) eqn:E; [now apply rev_nonempty in Hb|].
  reflexivity.
Qed.

Lemma endsWith_slash_noSlash (c : string) :
  c <> "" -> noSlash c = true -> Js.endsWith "/" c = false.
Proof.
  induction c as [|x c IH]; intros Hne Hc; [congruence|].
  simpl in Hc. apply andb_true_iff in Hc as [Hx Hc].
  destruct c as [|y c'].
  - unfold Js.endsWith. cbn [Js.rev append Js.startsWith].
    apply negb_true_iff in Hx. rewrite Ascii.eqb_sym. fold Path.slash.
    now rewrite Hx.
  - change (String x (String y c')) with (String x "" ++ String y c').
    rewrite endsWith_slash_app by discriminate.
    apply IH; [discriminate | exact Hc].
Qed.

Lemma plain_nonempty (c : string) : plain c = true -> c <> "".
Proof. intros H ->. discriminate. Qed.

Lemma endsWith_slash_join (l : list string) :
  l <> [] -> forallb plain l = true -> Js.endsWith "/" (Js.join "/" l) = false.
Proof.
  induction l as [|c r IH]; intros Hne Hall; [congruence|].
  cbn [forallb] in Hall. apply andb_true_iff in Hall as [Hc Hr].
  destruct r as [|d r'].
  - apply endsWith_slash_noSlash;
      [now apply plain_nonempty | now apply plain_noSlash].
  - change (Js.join "/" (c :: d :: r')) with (c ++ "/" ++ Js.join "/" (d :: r')).
    assert (Hd : plain d = true).
    { cbn [forallb] in Hr. now apply andb_true_iff in Hr as [Hd _]. }
    pose proof (join_nonempty d r' Hd) as Hj.
    rewrite endsWith_slash_app.
    + rewrite endsWith_slash_app by exact Hj. apply IH; [discriminate | exact Hr].
    + destruct (Js.join "/" (d :: r')); discriminate.
Qed.

(** [path.normalize] leaves a relative path of plain components alone. *)
Lemma normalize_plain (l : list string) :
  l <> [] -> forallb plain l = true ->
  Path.normalize (Js.join "/" l) = Js.join "/" l.
Proof.
  intros Hne Hall.
  pose proof (endsWith_slash_join l Hne Hall) as Hend.
  pose proof (normalizeFrom_plain true [] l Hne Hall) as Hnorm.
  destruct l as [|c r]; [congruence|].
  assert (Hc : plain c = true).
  { cbn [forallb] in Hall. now apply andb_true_iff in Hall as [Hc _]. }
  pose proof (isAbsolute_join_plain c r Hc) as Habs.
  pose proof (join_nonempty c r Hc) as Hj.
  unfold Path.normalize.
  destruct (Js.join "/" (c :: r)) as [|x u] eqn:E; [congruence|].
  rewrite Habs, Hend. cbn [negb]. rewrite Hnorm. cbn [app].
  rewrite E. cbn [append]. now rewrite append_nil_r.
Qed.

Lemma pathJoin_nonempty (a b : string) :
  a <> "" -> b <> "" -> Path.join a b = Path.normalize (a ++ "/" ++ b).
Proof. destruct a, b; intros Ha Hb; try congruence; reflexivity. Qed.

Lemma noSlash_app (a b : string) :
  noSlash (a ++ b) = noSlash a && noSlash b.
Proof.
  unfold noSlash. induction a as [|x a IH]; simpl; [reflexivity|].
  now rewrite IH, andb_assoc.
Qed.

Lemma length_append (a b : string) :
  String.length (a ++ b) = String.length a + String.length b.
Proof. induction a as [|x a IH]; simpl; [reflexivity | now rewrite IH]. Qed.

Lemma plain_with_suffix (base : string) :
  plain base = true -> plain (base ++ ".d.ts") = true.
Proof.
  intros Hb. apply plain_noSlash in Hb. unfold plain.
  rewrite noSlash_app, Hb.
  assert (Hlen : 5 <= String.length (base ++ ".d.ts")).
  { rewrite length_append. simpl. lia. }
  assert (Hneq : forall s, String.length s < 5 ->
                 String.eqb (base ++ ".d.ts") s = false).
  { intros s Hs. apply String.eqb_neq. intros E. rewrite E in Hlen. lia. }
  rewrite !Hneq by (simpl; lia). reflexivity.
Qed.

Lemma forallb_app_plain (l1 l2 : list string) :
  forallb plain l1 = true -> forallb plain l2 = true ->
  forallb plain (l1 ++ l2) = true.
Proof. intros H1 H2. now rewrite forallb_app, H1, H2. Qed.

(** For a relative source path of plain components and an output directory
    of plain components, the artifact lies under the output directory at the
    source's own relative path, with [.d.ts] appended to the file name. *)
Lemma getOutputPath_plain (cwd : Path.Cwd) (o : Options)
  (outDirs dirs : list string) (base : string) :
  output o = Js.join "/" outDirs ->
  String.eqb (output o) "auto" = false ->
  outDirs <> [] ->
  forallb plain outDirs = true ->
  forallb plain dirs = true ->
  plain base = true ->
  getOutputPath cwd o (Js.join "/" (dirs ++ [base])) =
  Js.join "/" (outDirs ++ dirs ++ [base ++ ".d.ts"]).
Proof.
  intros Hout Hauto Hne Hod Hd Hb.
  assert (Hsrc : forallb plain (dirs ++ [base]) = true).
  { apply forallb_app_plain; [exact Hd|]. cbn [forallb]. now rewrite Hb. }
  assert (Hart : forallb plain (dirs ++ [base ++ ".d.ts"]) = true).
  { apply forallb_app_plain; [exact Hd|]. cbn [forallb].
    now rewrite (plain_with_suffix _ Hb). }
  assert (Hsne : forall x, (dirs ++ [x])%list <> []).
  { intros x E. now apply app_eq_nil in E as [_ E]. }
  unfold getOutputPath. rewrite Hauto.
  rewrite (relative_plain cwd _ (Hsne base) Hsrc), join_snoc_suffix.
  rewrite Hout, pathJoin_nonempty.
  - rewrite <- join_app by (auto using Hsne).
    apply normalize_plain.
    + intros E. now apply app_eq_nil in E as [E _].
    + now apply forallb_app_plain.
  - destruct outDirs as [|c r]; [congruence|]. apply join_nonempty.
    cbn [forallb] in Hod. now apply andb_true_iff in Hod as [Hc _].
  - destruct dirs as [|d r]; cbn [app].
    + apply join_nonempty, plain_with_suffix, Hb.
    + apply join_nonempty.
      cbn [forallb] in Hd. now apply andb_true_iff in Hd as [Hd' _].
Qed.

(** C4: the artifact path depends on the source path, the output option
    and the working directory only.  With output ['auto'] it is the source
    path followed by [.d.ts]; with an output directory it is that directory
    joined with the source path relative to the working directory followed
    by [.d.ts].  [styles/test.css] gives [styles/test.css.d.ts] under
    ['auto'] and [types/styles/test.css.d.ts] under ['types'], in every
    working directory. *)
Theorem C4_getOutputPath (cwd : Path.Cwd) (o : Options) (filePath : string) :
  (output o = "auto" -> getOutputPath cwd o filePath = filePath ++ ".d.ts") /\
  (output o <> "auto" ->
     getOutputPath cwd o filePath =
     Path.join (output o) (Path.relative cwd filePath ++ ".d.ts")) /\
  (output o = "auto" ->
     getOutputPath cwd o "styles/test.css" = "styles/test.css.d.ts") /\
  (output o = "types" ->
     getOutputPath cwd o "styles/test.css" = "types/styles/test.css.d.ts").
Proof.
  repeat split.
  - intros Hout. unfold getOutputPath. now rewrite Hout.
  - intros Hout. unfold getOutputPath.
    apply String.eqb_neq in Hout. now rewrite Hout.
  - intros Hout. unfold getOutputPath. now rewrite Hout.
  - intros Hout.
    apply (getOutputPath_plain cwd o ["types"] ["styles"] "test.css");
      try reflexivity; try discriminate; now rewrite Hout.
Qed.

Lemma C4_getOutputPath_witness :
  let auto := defaults "**/*.css" in
  let types :=
    construct {| opt_pattern := "**/*.css"; opt_output := Some "types";
                 opt_watch := None; opt_exportType := None;
                 opt_nameFormat := None; opt_debug := None |} in
  output auto = "auto" /\ output types = "types" /\ output types <> "auto" /\
  getOutputPath ["home"; "dev"; "app"] auto "styles/test.css" =
    "styles/test.css.d.ts" /\
  getOutputPath ["home"; "dev"; "app"] types "styles/test.css" =
    "types/styles/test.css.d.ts" /\
  getOutputPath ["home"; "dev"; "app"] types "/home/dev/lib/a.css" =
    Path.join "types" (Path.relative ["home"; "dev"; "app"]
                                     "/home/dev/lib/a.css" ++ ".d.ts").
Proof.
  cbv zeta.
  split; [reflexivity|]. split; [reflexivity|]. split; [discriminate|].
  split; [|split].
  - apply (proj1 (proj2 (proj2
      (C4_getOutputPath ["home"; "dev"; "app"] (defaults "**/*.css") "x")))).
    reflexivity.
  - apply (proj2 (proj2 (proj2
      (C4_getOutputPath ["home"; "dev"; "app"]
         (construct {| opt_pattern := "**/*.css"; opt_output := Some "types";
                       opt_watch := None; opt_exportType := None;
                       opt_nameFormat := None; opt_debug := None |}) "x")))).
    reflexivity.
  - apply (proj1 (proj2
      (C4_getOutputPath ["home"; "dev"; "app"]
         (construct {| opt_pattern := "**/*.css"; opt_output := Some "types";
                       opt_watch := None; opt_exportType := None;
                       opt_nameFormat := None; opt_debug := None |})
         "/home/dev/lib/a.css"))).
    discriminate.
Defined.

(** ** Runs of the generator *)

Lemma outcomes_app (a b : list Event) :
  outcomes (a ++ b) = (outcomes a ++ outcomes b)%list.
Proof.
  induction a as [|e a IH]; [reflexivity|].
  destruct e as [[| |] [] att|c]; cbn [app outcomes]; rewrite IH; reflexivity.
Qed.

Lemma calls_app (a b : list Event) :
  calls (a ++ b) = (calls a ++ calls b)%list.
Proof.
  induction a as [|e a IH]; [reflexivity|].
  destruct e; cbn [app calls]; rewrite IH; reflexivity.
Qed.

Lemma artifacts_app (a b : list Event) :
  artifacts (a ++ b) = (artifacts a ++ artifacts b)%list.
Proof.
  induction a as [|e a IH]; [reflexivity|].
  destruct e as [ch m att|[]]; cbn [app artifacts]; rewrite IH; reflexivity.
Qed.

Lemma observable_app (a b : list Event) :
  observable (a ++ b) = (observable a ++ observable b)%list.
Proof. apply filter_app. Qed.

Ltac unfold_run :=
  unfold processFile, processFileBody, loadCss, tryCatch, bind, whenDebug,
    info, log, print, ask, change, ret, record;
  cbn [fs events fst snd].

Ltac case_on t := destruct t eqn:?; cbn [fst snd fs events].

(** One case split of a run: the debug flag, the extension test, then the
    answers of the collaborators in the order they are asked. *)
Ltac split_step :=
  match goal with
  | |- context [debug ?o] => case_on (debug o)
  | |- context [orb ?a ?b] => case_on (orb a b)
  | |- context [sassCompile ?a ?b] => case_on (sassCompile a b)
  | |- context [readFileSync ?a ?b] => case_on (readFileSync a b)
  | |- context [postcssModules ?a ?b ?c] => case_on (postcssModules a b c)
  | |- context [mkdirSync ?a ?b] => case_on (mkdirSync a b)
  | |- context [writeFileSync ?a ?b ?c] => case_on (writeFileSync a b c)
  end.

Ltac split_run := cbn [fst snd fs events]; repeat split_step.

Section Runs.
Context {FS : Type} `{Collaborators FS}.
Variable cwd : Path.Cwd.

Lemma world_eta (w : World FS) :
  {| fs := fs w; events := events w ++ [] |} = w.
Proof. destruct w; cbn. now rewrite app_nil_r. Qed.

Lemma forEach_items (files : list string) (w : World FS) :
  forEach files (fun file => info (MsgItem file)) w =
  (Ok tt, {| fs := fs w;
             events := events w ++
               map (fun f => Printed ConsoleInfo (MsgItem f) None) files |}).
Proof.
  revert w. induction files as [|f r IH]; intros w.
  - cbn. now rewrite world_eta.
  - cbn [forEach]. unfold bind, info, print. rewrite IH.
    unfold record. cbn [fs events map]. now rewrite <- app_assoc.
Qed.

Lemma processFile_ok (o : Options) (filePath : string) (w : World FS) :
  fst (processFile cwd o filePath w) = Ok tt.
Proof.
  unfold processFile, tryCatch.
  destruct (processFileBody cwd o filePath w) as [[[]|e] w']; reflexivity.
Qed.

(** What the [try] body leaves on the console: the success line when it
    completes, no outcome line when it throws. *)
Lemma processFileBody_outcomes (o : Options) (filePath : string) (w : World FS) :
  match fst (processFileBody cwd o filePath w) with
  | Ok _ =>
      outcomes (events (snd (processFileBody cwd o filePath w))) =
      (outcomes (events w) ++ [(filePath, true)])%list
  | Throw _ =>
      outcomes (events (snd (processFileBody cwd o filePath w))) =
      outcomes (events w)
  end.
Proof.
  unfold_run. split_run; cbn [fst snd fs events];
    rewrite ?outcomes_app; cbn [outcomes]; rewrite ?app_nil_r; reflexivity.
Qed.

(** The [try] body completes exactly when every stage does, and throws the
    error of the first stage that fails (load or compile, extraction,
    directory creation, write). *)
Lemma processFileBody_result (o : Options) (filePath : string) (w : World FS) :
  fst (processFileBody cwd o filePath w) =
  match pipelineResult cwd o filePath (fs w) with
  | Ok _ => Ok tt
  | Throw e => Throw e
  end.
Proof.
  unfold pipelineResult, loadResult, classNamesOf. unfold_run.
  split_run; reflexivity.
Qed.

Lemma processFileBody_fs (o : Options) (filePath : string) (w : World FS) :
  match pipelineResult cwd o filePath (fs w) with
  | Ok t => fs (snd (processFileBody cwd o filePath w)) = t
  | Throw _ => True
  end.
Proof.
  unfold pipelineResult, loadResult, classNamesOf. unfold_run.
  split_run; auto.
Qed.

(** A caught failure is printed on the error channel with the path of the
    file and the error; a run that completes is left as it is. *)
Lemma processFile_catch (o : Options) (filePath : string) (w : World FS) :
  processFile cwd o filePath w =
  match processFileBody cwd o filePath w with
  | (Ok _, w') => (Ok tt, w')
  | (Throw e, w') =>
      (Ok tt, record (Printed ConsoleError (MsgErrorProcessing filePath)
                              (Some e)) w')
  end.
Proof.
  unfold processFile, tryCatch, print.
  destruct (processFileBody cwd o filePath w) as [[[]|e] w']; reflexivity.
Qed.

Lemma processFile_outcomes (o : Options) (filePath : string) (w : World FS) :
  outcomes (events (snd (processFile cwd o filePath w))) =
  (outcomes (events w) ++
   [(filePath,
     match pipelineResult cwd o filePath (fs w) with
     | Ok _ => true
     | Throw _ => false
     end)])%list.
Proof.
  pose proof (processFileBody_outcomes o filePath w) as Hout.
  pose proof (processFileBody_result o filePath w) as Hres.
  rewrite processFile_catch.
  destruct (processFileBody cwd o filePath w) as [[[]|e] w'];
    cbn [fst snd] in *;
    destruct (pipelineResult cwd o filePath (fs w)); try discriminate.
  - exact Hout.
  - unfold record. cbn [events]. rewrite outcomes_app, Hout. reflexivity.
Qed.


(** The loop of [generate] goes through every file, whatever happens to
    the files before it. *)
Lemma forEach_processFile (o : Options) (files : list string) (w : World FS) :
  fst (forEach files (processFile cwd o) w) = Ok tt /\
  map fst (outcomes (events (snd (forEach files (processFile cwd o) w)))) =
  (map fst (outcomes (events w)) ++ files)%list.
Proof.
  revert w. induction files as [|f r IH]; intros w.
  - cbn. now rewrite app_nil_r.
  - cbn [forEach]. unfold bind.
    pose proof (processFile_ok o f w) as Hok.
    pose proof (processFile_outcomes o f w) as Hout.
    destruct (processFile cwd o f w) as [res w'].
    cbn [fst snd] in *. subst res.
    destruct (IH w') as [IH1 IH2]. split; [exact IH1|].
    rewrite IH2, Hout, map_app, <- app_assoc. reflexivity.
Qed.


Lemma calls_items (files : list string) :
  calls (map (fun f => Printed ConsoleInfo (MsgItem f) None) files) = [].
Proof. induction files as [|f r IH]; [reflexivity | exact IH]. Qed.

Lemma generate_run (o : Options) (w : World FS) :
  generate cwd o w =
  match glob (pattern o) (fs w) with
  | Ok files => forEach files (processFile cwd o) (afterDiscovery o files w)
  | Throw e =>
      (Throw e,
       {| fs := fs w;
          events :=
            events w ++
            (if debug o
             then [Printed ConsoleInfo (MsgUsingGlob (pattern o)) None]
             else []) ++ [Called (CallGlob (pattern o))] |})
  end.
Proof.
  unfold generate, afterDiscovery, bind, whenDebug, ask, info, print, ret, record.
  cbn [fs events].
  destruct (debug o); cbn [fs events];
    destruct (glob (pattern o) (fs w)) as [files|e]; cbn [fs events app].
  - rewrite forEach_items. cbn [fs events].
    rewrite <- !app_assoc. reflexivity.
  - rewrite <- !app_assoc. reflexivity.
  - reflexivity.
  - reflexivity.
Qed.



(** ** The debug flag *)

Lemma getOutputPath_setDebug (b : bool) (o : Options) (filePath : string) :
  getOutputPath cwd (setDebug b o) filePath = getOutputPath cwd o filePath.
Proof. reflexivity. Qed.

Lemma generateTypeDefinition_setDebug (b : bool) (o : Options)
  (classNames : list string) :
  generateTypeDefinition (setDebug b o) classNames =
  generateTypeDefinition o classNames.
Proof. reflexivity. Qed.

Lemma artifacts_observable (es : list Event) :
  artifacts (observable es) = artifacts es.
Proof.
  induction es as [|e r IH]; [reflexivity|].
  unfold observable in *. cbn [filter].
  destruct e as [[| |] [] [a|]|[]]; cbn [diagnostic negb artifacts];
    rewrite ?IH; reflexivity.
Qed.

Lemma calls_observable (es : list Event) :
  calls (observable es) = calls es.
Proof.
  induction es as [|e r IH]; [reflexivity|].
  unfold observable in *. cbn [filter].
  destruct e as [[| |] [] [a|]|c]; cbn [diagnostic negb calls];
    rewrite ?IH; reflexivity.
Qed.

Lemma processFile_debug (o : Options) (filePath : string) (w1 w2 : World FS) :
  sameButDiagnostics w1 w2 ->
  fst (processFile cwd (setDebug true o) filePath w1) =
  fst (processFile cwd (setDebug false o) filePath w2) /\
  sameButDiagnostics (snd (processFile cwd (setDebug true o) filePath w1))
                     (snd (processFile cwd (setDebug false o) filePath w2)).
Proof.
  intros [Hfs Hev]. unfold sameButDiagnostics. unfold_run.
  cbn [debug setDebug fs events fst snd]. rewrite ?Hfs.
  repeat (split_step; rewrite ?Hfs, ?getOutputPath_setDebug,
                        ?generateTypeDefinition_setDebug);
    repeat split; try reflexivity;
    rewrite ?observable_app, ?Hev; cbn [observable filter diagnostic negb app];
    rewrite ?app_nil_r; reflexivity.
Qed.

Lemma forEach_debug (o : Options) (files : list string) (w1 w2 : World FS) :
  sameButDiagnostics w1 w2 ->
  fst (forEach files (processFile cwd (setDebug true o)) w1) =
  fst (forEach files (processFile cwd (setDebug false o)) w2) /\
  sameButDiagnostics
    (snd (forEach files (processFile cwd (setDebug true o)) w1))
    (snd (forEach files (processFile cwd (setDebug false o)) w2)).
Proof.
  revert w1 w2. induction files as [|f r IH]; intros w1 w2 Hsim.
  - cbn. split; [reflexivity | exact Hsim].
  - cbn [forEach]. unfold bind.
    destruct (processFile_debug o f w1 w2 Hsim) as [Hres Hsim'].
    pose proof (processFile_ok (setDebug true o) f w1) as Hok1.
    pose proof (processFile_ok (setDebug false o) f w2) as Hok2.
    destruct (processFile cwd (setDebug true o) f w1) as [r1 w1'].
    destruct (processFile cwd (setDebug false o) f w2) as [r2 w2'].
    cbn [fst snd] in *. subst r1 r2. apply IH, Hsim'.
Qed.

Lemma observable_items (files : list string) :
  observable (map (fun f => Printed ConsoleInfo (MsgItem f) None) files) = [].
Proof. induction files as [|f r IH]; [reflexivity | exact IH]. Qed.

Lemma generate_debug (o : Options) (w : World FS) :
  fst (generate cwd (setDebug true o) w) =
  fst (generate cwd (setDebug false o) w) /\
  sameButDiagnostics (snd (generate cwd (setDebug true o) w))
                     (snd (generate cwd (setDebug false o) w)).
Proof.
  rewrite !generate_run. cbn [pattern debug setDebug].
  destruct (glob (pattern o) (fs w)) as [files|e].
  - apply forEach_debug. unfold sameButDiagnostics, afterDiscovery.
    cbn [fs events debug pattern setDebug]. split; [reflexivity|].
    rewrite !observable_app. cbn [observable filter diagnostic negb app].
    fold (observable (map (fun f => Printed ConsoleInfo (MsgItem f) None) files)).
    rewrite observable_items. reflexivity.
  - unfold sameButDiagnostics. cbn [fst snd fs events].
    repeat split. rewrite !observable_app. reflexivity.
Qed.

(** C8: two runs of [generate] that differ in the debug flag only end with
    the same result and the same file tree, hand the same contents to
    [writeFileSync] at the same paths, make the same calls to the
    collaborators, and print the same lines apart from the diagnostic
    ones. *)
Theorem C8_debug_changes_no_artifact (o : Options) (w : World FS) :
  let verbose := generate cwd (setDebug true o) w in
  let silent := generate cwd (setDebug false o) w in
  fst verbose = fst silent /\
  fs (snd verbose) = fs (snd silent) /\
  artifacts (events (snd verbose)) = artifacts (events (snd silent)) /\
  calls (events (snd verbose)) = calls (events (snd silent)) /\
  observable (events (snd verbose)) = observable (events (snd silent)).
Proof.
  cbv zeta. destruct (generate_debug o w) as [Hres [Hfs Hobs]].
  repeat split; try assumption.
  - rewrite <- (artifacts_observable (events (snd (generate cwd (setDebug true o) w)))).
    rewrite Hobs. apply artifacts_observable.
  - rewrite <- (calls_observable (events (snd (generate cwd (setDebug true o) w)))).
    rewrite Hobs. apply calls_observable.
Qed.


(** ** processSingleFile *)

Lemma processFile_extends (o : Options) (filePath : string) (w : World FS) :
  exists es, events (snd (processFile cwd o filePath w)) = (events w ++ es)%list.
Proof.
  unfold_run. split_run; rewrite <- ?app_assoc; eexists; reflexivity.
Qed.

Lemma forEach_extends (o : Options) (files : list string) (w : World FS) :
  exists es,
    events (snd (forEach files (processFile cwd o) w)) = (events w ++ es)%list.
Proof.
  revert w. induction files as [|f r IH]; intros w.
  - exists []. cbn. now rewrite app_nil_r.
  - cbn [forEach]. unfold bind.
    pose proof (processFile_ok o f w) as Hok.
    destruct (processFile_extends o f w) as [es1 H1].
    destruct (processFile cwd o f w) as [res w']. cbn [fst snd] in *. subst res.
    destruct (IH w') as [es2 H2]. exists (es1 ++ es2)%list.
    now rewrite H2, H1, app_assoc.
Qed.

(** Whatever [generate] does, the first call it makes is the discovery. *)
Lemma generate_starts_with_glob (o : Options) (w : World FS) :
  exists rest,
    calls (events (snd (generate cwd o w))) =
    (calls (events w) ++ CallGlob (pattern o) :: rest)%list.
Proof.
  rewrite generate_run. destruct (glob (pattern o) (fs w)) as [files|e].
  - destruct (forEach_extends o files (afterDiscovery o files w)) as [es ->].
    exists (calls es). unfold afterDiscovery. cbn [events].
    rewrite !calls_app.
    destruct (debug o); cbn [calls app]; rewrite ?calls_items;
      rewrite <- ?app_assoc; reflexivity.
  - exists []. cbn [snd events]. rewrite !calls_app.
    destruct (debug o); reflexivity.
Qed.

(** C9: [processSingleFile] announces the file and then is the batch run
    of the configuration [{ pattern: path, ...options }]: the pattern is the
    path, every other option is the caller's, and the constructor's defaults
    stand in for the options the caller left out.  The path goes to the
    discovery as a pattern and is not read directly; when the discovery
    answers with no file for it, nothing is processed, nothing else is
    called, the file tree is unchanged and no error is thrown. *)
Theorem C9_single_file_is_a_batch_run (filePath : string)
  (options : SingleFileOptions) (w : World FS) :
  let announced :=
    record (Printed ConsoleInfo (MsgSingleFile filePath) None) w in
  let run := processSingleFile cwd filePath options w in
  run = generateCssModuleTypes cwd
          {| opt_pattern := filePath;
             opt_output := sf_output options;
             opt_watch := sf_watch options;
             opt_exportType := sf_exportType options;
             opt_nameFormat := sf_nameFormat options;
             opt_debug := sf_debug options |} announced /\
  run = generate cwd
          {| pattern := filePath;
             output := match sf_output options with
                       | Some (String c r) => String c r
                       | _ => "auto"
                       end;
             watch := match sf_watch options with
                      | Some true => true
                      | _ => false
                      end;
             exportType := match sf_exportType options with
                           | Some e => e
                           | None => ExportDefault
                           end;
             nameFormat := match sf_nameFormat options with
                           | Some n => n
                           | None => CamelCase
                           end;
             debug := match sf_debug options with
                      | Some true => true
                      | _ => false
                      end |} announced /\
  (exists rest,
     calls (events (snd run)) =
     (calls (events w) ++ CallGlob filePath :: rest)%list) /\
  match glob filePath (fs w) with
  | Ok [] =>
      fst run = Ok tt /\
      fs (snd run) = fs w /\
      calls (events (snd run)) = (calls (events w) ++ [CallGlob filePath])%list /\
      outcomes (events (snd run)) = outcomes (events w)
  | _ => True
  end.
Proof.
  cbv zeta.
  assert (Hrun : processSingleFile cwd filePath options w =
                 generate cwd (construct (tempOptions filePath options))
                   (record (Printed ConsoleInfo (MsgSingleFile filePath) None) w))
    by reflexivity.
  split; [reflexivity|]. split.
  { rewrite Hrun. f_equal. f_equal.
    unfold construct, tempOptions, orString, orBool, orElse.
    cbn [opt_pattern opt_output opt_watch opt_exportType opt_nameFormat
         opt_debug].
    destruct (sf_output options) as [[|c r]|];
      destruct (sf_watch options) as [[|]|];
      destruct (sf_debug options) as [[|]|]; reflexivity. }
  rewrite Hrun. split.
  - destruct (generate_starts_with_glob
                (construct (tempOptions filePath options))
                (record (Printed ConsoleInfo (MsgSingleFile filePath) None) w))
      as [rest Hrest].
    exists rest. rewrite Hrest. unfold record.
    cbn [events pattern construct tempOptions opt_pattern].
    rewrite calls_app. cbn [calls]. now rewrite app_nil_r.
  - rewrite generate_run. unfold afterDiscovery, record.
    cbn [fs events pattern construct tempOptions opt_pattern].
    destruct (glob filePath (fs w)) as [[|f r]|e]; [|exact I|exact I].
    cbn [forEach]. unfold ret.
    cbn [fst snd fs events length map].
    repeat split.
    + rewrite !calls_app.
      destruct (debug (construct (tempOptions filePath options)));
        cbn [calls app]; now rewrite ?app_nil_r.
    + rewrite !outcomes_app.
      destruct (debug (construct (tempOptions filePath options)));
        cbn [outcomes app]; now rewrite ?app_nil_r.
Qed.

(** ** The written artifact *)

Lemma processFile_artifacts (o : Options) (filePath : string) (w : World FS) :
  artifacts (events (snd (processFile cwd o filePath w))) =
  (artifacts (events w) ++
   match loadResult filePath (fs w) with
   | Ok css =>
       match postcssModules css filePath (fs w) with
       | Ok keys =>
           match mkdirSync (Path.dirname (getOutputPath cwd o filePath))
                           (fs w) with
           | Ok _ =>
               [(getOutputPath cwd o filePath,
                 generateTypeDefinition o (classNamesOf keys))]
           | Throw _ => []
           end
       | Throw _ => []
       end
   | Throw _ => []
   end)%list.
Proof.
  unfold loadResult, classNamesOf. unfold_run.
  split_run; rewrite ?artifacts_app; cbn [artifacts];
    rewrite ?app_nil_r; reflexivity.
Qed.

(** C10: under ['named'] the text for the empty class-name set is the empty
    string, so that a stylesheet in which the extraction finds no class gets
    an artifact with empty content. *)
Theorem C10_named_empty_set (o : Options) (filePath css : string)
  (w : World FS) (t1 : FS)
  (Hnamed : exportType o = ExportNamed)
  (Hload : loadResult filePath (fs w) = Ok css)
  (Hextract : postcssModules css filePath (fs w) = Ok [])
  (Hmkdir : mkdirSync (Path.dirname (getOutputPath cwd o filePath)) (fs w)
            = Ok t1) :
  generateTypeDefinition o [] = "" /\
  artifacts (events (snd (processFile cwd o filePath w))) =
  (artifacts (events w) ++ [(getOutputPath cwd o filePath, "")])%list.
Proof.
  assert (Htext : generateTypeDefinition o [] = "").
  { unfold generateTypeDefinition. now rewrite Hnamed. }
  split; [exact Htext|].
  rewrite processFile_artifacts, Hload, Hextract, Hmkdir.
  unfold classNamesOf. cbn [fold_left]. now rewrite Htext.
Qed.

End Runs.

(** ** The directories to watch *)

Lemma existsb_eqb_In (x : string) (xs : list string) :
  existsb (String.eqb x) xs = true <-> In x xs.
Proof.
  rewrite existsb_exists. split.
  - intros (y & Hy & E). apply String.eqb_eq in E. now subst.
  - intros Hx. exists x. split; [exact Hx | apply String.eqb_refl].
Qed.

Lemma setAdd_In (x y : string) (xs : list string) :
  In x (setAdd y xs) <-> x = y \/ In x xs.
Proof.
  unfold setAdd. destruct (existsb (String.eqb y) xs) eqn:E.
  - apply existsb_eqb_In in E. split; [auto|]. intros [->|Hx]; assumption.
  - rewrite in_app_iff. cbn [In]. split.
    + intros [Hx|[<-|[]]]; auto.
    + intros [->|Hx]; auto.
Qed.

Lemma setAdd_NoDup (y : string) (xs : list string) :
  NoDup xs -> NoDup (setAdd y xs).
Proof.
  intros Hnd. unfold setAdd. destruct (existsb (String.eqb y) xs) eqn:E.
  - exact Hnd.
  - apply NoDup_app; [exact Hnd | repeat constructor; intros [] |].
    intros x Hx [<-|[]].
    apply existsb_eqb_In in Hx. congruence.
Qed.

Lemma rev_length (s : string) : String.length (Js.rev s) = String.length s.
Proof.
  induction s as [|c s IH]; [reflexivity|].
  cbn [Js.rev]. rewrite length_append, IH. simpl. lia.
Qed.

Lemma scanDir_length (r : string) :
  forall (matched : bool) (r' : string),
    Path.scanDir r matched = Some r' ->
    String.length r' + (if matched then 2 else 1) <= String.length r.
Proof.
  induction r as [|c r IH]; intros matched r' Hscan; [discriminate|].
  cbn [Path.scanDir] in Hscan. cbn [String.length].
  destruct (Ascii.eqb c Path.slash).
  - destruct matched.
    + apply IH in Hscan. lia.
    + injection Hscan as <-. lia.
  - apply IH in Hscan. destruct matched; lia.
Qed.

(** One step of the loop either ends it or shortens the path. *)
Lemma dirname_shrinks (p : string) :
  isRootOrDot p = false ->
  isRootOrDot (Path.dirname p) = true \/
  String.length (Path.dirname p) < String.length p.
Proof.
  intros _. destruct p as [|c0 rest]; [left; reflexivity|].
  unfold Path.dirname.
  destruct (Path.scanDir (Js.rev rest) true) as [r'|] eqn:Hscan.
  - right. apply scanDir_length in Hscan. rewrite rev_length in Hscan.
    destruct r' as [|y r''].
    + destruct (Ascii.eqb c0 Path.slash); cbn [String.length] in *; lia.
    + change (String.length (String c0 (Js.rev (String y r''))))
        with (S (String.length (Js.rev (String y r'')))).
      rewrite rev_length. cbn [String.length] in *. lia.
  - left. destruct (Ascii.eqb c0 Path.slash); reflexivity.
Qed.

Lemma no_ancestor_of_root (p x : string) :
  isRootOrDot p = true -> ~ Spec.ProperAncestor p x.
Proof. intros Hp Hanc. inversion Hanc; congruence. Qed.

Lemma ancestor_step (p x : string) :
  isRootOrDot p = false ->
  Spec.ProperAncestor p x <->
  x = Path.dirname p \/ Spec.ProperAncestor (Path.dirname p) x.
Proof.
  intros Hp. split.
  - intros Hanc. inversion Hanc; subst; auto.
  - intros [->|Hanc]; [now constructor | now apply Spec.ancestor_further].
Qed.

(** The loop adds exactly the proper ancestors that pass the filter; the
    bound on the number of its tests is never reached. *)
Lemma addParents_In (fuel : nat) :
  forall (includeFilter p : string) (acc : list string) (x : string),
    isRootOrDot p = true \/ String.length p < fuel ->
    In x (addParents fuel includeFilter p acc) <->
    In x acc \/
    (Spec.ProperAncestor p x /\ passesFilter includeFilter x = true).
Proof.
  induction fuel as [|n IH]; intros includeFilter p acc x Hfuel.
  - destruct Hfuel as [Hp|Hlt]; [|lia]. cbn [addParents].
    split; [auto|]. intros [Hx|[Hanc _]]; [exact Hx|].
    now apply no_ancestor_of_root in Hanc.
  - cbn [addParents]. destruct (isRootOrDot p) eqn:Hp.
    + split; [auto|]. intros [Hx|[Hanc _]]; [exact Hx|].
      now apply no_ancestor_of_root in Hanc.
    + assert (Hfuel' : isRootOrDot (Path.dirname p) = true \/
                       String.length (Path.dirname p) < n).
      { destruct (dirname_shrinks p Hp) as [Ht|Hlt]; [now left|].
        destruct Hfuel as [Hp'|Hlt']; [congruence|]. right. lia. }
      rewrite (IH _ _ _ _ Hfuel'), (ancestor_step p x Hp).
      fold (passesFilter includeFilter (Path.dirname p)).
      destruct (passesFilter includeFilter (Path.dirname p)) eqn:Hpass.
      * rewrite setAdd_In. split.
        -- intros [[->|Hx]|[Hanc Hf]]; auto.
        -- intros [Hx|[[->|Hanc] Hf]]; auto.
      * split.
        -- intros [Hx|[Hanc Hf]]; auto.
        -- intros [Hx|[[->|Hanc] Hf]]; auto. congruence.
Qed.

Lemma addParents_NoDup (fuel : nat) :
  forall (includeFilter p : string) (acc : list string),
    NoDup acc -> NoDup (addParents fuel includeFilter p acc).
Proof.
  induction fuel as [|n IH]; intros includeFilter p acc Hnd; [exact Hnd|].
  cbn [addParents]. destruct (isRootOrDot p); [exact Hnd|].
  apply IH.
  destruct (negb (Js.truthy includeFilter) ||
            Js.includes includeFilter (Path.dirname p));
    [now apply setAdd_NoDup | exact Hnd].
Qed.

Lemma visitFile_In (includeFilter file : string) (acc : list string) (x : string) :
  In x (visitFile includeFilter acc file) <->
  In x acc \/ x = Path.dirname file \/
  (Spec.ProperAncestor (Path.dirname file) x /\
   passesFilter includeFilter x = true).
Proof.
  unfold visitFile. rewrite addParents_In by (right; lia).
  rewrite setAdd_In. tauto.
Qed.

Lemma fold_visitFile_In (includeFilter : string) (files : list string) :
  forall (acc : list string) (x : string),
    In x (fold_left (visitFile includeFilter) files acc) <->
    In x acc \/
    exists f, In f files /\
      (x = Path.dirname f \/
       (Spec.ProperAncestor (Path.dirname f) x /\
        passesFilter includeFilter x = true)).
Proof.
  induction files as [|f r IH]; intros acc x; cbn [fold_left].
  - split; [auto|]. intros [Hx|(f & [] & _)]. exact Hx.
  - rewrite IH, visitFile_In. split.
    + intros [[Hx|Hf]|(g & Hg & Hx)].
      * now left.
      * right. exists f. split; [now left | exact Hf].
      * right. exists g. split; [now right | exact Hx].
    + intros [Hx|(g & [<-|Hg] & Hx)].
      * left. now left.
      * left. now right.
      * right. exists g. now split.
Qed.

Lemma fold_visitFile_NoDup (includeFilter : string) (files : list string) :
  forall acc, NoDup acc -> NoDup (fold_left (visitFile includeFilter) files acc).
Proof.
  induction files as [|f r IH]; intros acc Hnd; [exact Hnd|].
  cbn [fold_left]. apply IH. unfold visitFile.
  now apply addParents_NoDup, setAdd_NoDup.
Qed.

Lemma passesFilter_spec (includeFilter x : string) :
  passesFilter includeFilter x = true <->
  includeFilter = "" \/ Js.includes includeFilter x = true.
Proof.
  unfold passesFilter. rewrite orb_true_iff.
  destruct includeFilter as [|c r]; cbn [Js.truthy negb].
  - split; auto.
  - split; intros [E|E]; auto; discriminate.
Qed.

Section Watch.
Context {FS : Type} `{Collaborators FS}.
Variable cwd : Path.Cwd.

Lemma getDirectoriesToWatch_result (pat includeFilter : string) (dbg : bool)
  (w : World FS) :
  fst (getDirectoriesToWatch pat includeFilter dbg w) =
  match glob pat (fs w) with
  | Ok files => Ok (collectDirs includeFilter files)
  | Throw e => Throw e
  end.
Proof.
  unfold getDirectoriesToWatch, bind, ask, whenDebug, info, print, ret, record.
  cbn [fs events].
  destruct (glob pat (fs w)); destruct dbg; reflexivity.
Qed.

Lemma startWatch_result (pat : string) (options : CliOptions) (w : World FS) :
  fst (startWatch cwd pat options w) =
  match generateCssModuleTypes cwd (generatorOptions pat options)
          (afterBanner cwd pat w) with
  | (Throw e, _) => Throw e
  | (Ok _, w1) =>
      match glob pat (fs w1) with
      | Ok files => Ok (collectDirs (projectDir pat) files)
      | Throw e => Throw e
      end
  end.
Proof.
  pose proof (@forEach_items FS) as Hitems.
  unfold info, print, record in Hitems.
  unfold startWatch, getDirectoriesToWatch, afterBanner.
  unfold bind, log, info, print, ask, whenDebug, ret. cbn [fs events].
  destruct (generateCssModuleTypes cwd (generatorOptions pat options) _)
    as [[[]|e] w1]; [|reflexivity].
  unfold record. cbn [fs events].
  destruct (glob pat (fs w1)) as [files|e]; [|reflexivity].
  destruct (flag (cli_debug options)); cbn [fst snd fs events]; [|reflexivity].
  rewrite Hitems. reflexivity.
Qed.

(** C6, as the code has it: the directories handed to the watcher are those
    collected from the files that the discovery finds after the initial
    batch run: the directory of every file and every directory reached from
    it by [path.dirname], up to and including the final ['.'] or ['/'],
    an ancestor being kept only if the filter is empty or occurs in it; no
    directory is listed twice.  The filter is the component at index 1 of
    the pattern split on ['/'], empty when there is none. *)
Theorem C6_watched_directories (pat : string) (options : CliOptions)
  (w : World FS) :
  fst (startWatch cwd pat options w) =
    match generateCssModuleTypes cwd (generatorOptions pat options)
            (afterBanner cwd pat w) with
    | (Throw e, _) => Throw e
    | (Ok _, w1) =>
        match glob pat (fs w1) with
        | Ok files => Ok (collectDirs (projectDir pat) files)
        | Throw e => Throw e
        end
    end
  /\ projectDir pat = nth 1 (Js.splitChar "/" pat) ""
  /\ forall (includeFilter : string) (files : list string),
       NoDup (collectDirs includeFilter files) /\
       forall x,
         In x (collectDirs includeFilter files) <->
         exists f, In f files /\
           (x = Path.dirname f \/
            (Spec.ProperAncestor (Path.dirname f) x /\
             (includeFilter = "" \/ Js.includes includeFilter x = true))).
Proof.
  split; [apply startWatch_result|]. split; [reflexivity|].
  intros includeFilter files. split.
  - apply fold_visitFile_NoDup. constructor.
  - intros x. unfold collectDirs. rewrite fold_visitFile_In. split.
    + intros [[]|(f & Hf & Hx)]. exists f. split; [exact Hf|].
      now rewrite <- passesFilter_spec.
    + intros (f & Hf & Hx). right. exists f. split; [exact Hf|].
      now rewrite passesFilter_spec.
Qed.

(** ** The unlink handler *)

(** With [--output] given, the handler asks whether the artifact exists,
    unlinks it only then, and calls nothing else. *)
Lemma onUnlink_with_output (options : CliOptions) (out filePath : string)
  (w : World FS) :
  cli_output options = Some out ->
  moduleCssFilePattern filePath = true ->
  let target :=
    if String.eqb out "auto" then absolutePath cwd filePath ++ ".d.ts"
    else Path.join out
           (Path.relative cwd (absolutePath cwd filePath) ++ ".d.ts") in
  let run := onUnlink cwd options filePath w in
  calls (events (snd run)) =
    (calls (events w) ++
     CallExists target ::
     (if existsSync target (fs w) then [CallUnlink target] else []))%list /\
  (existsSync target (fs w) = false -> fst run = Ok tt /\ fs (snd run) = fs w) /\
  (existsSync target (fs w) = true ->
   match unlinkSync target (fs w) with
   | Ok t => fst run = Ok tt /\ fs (snd run) = t
   | Throw e => fst run = Throw e /\ fs (snd run) = fs w
   end).
Proof.
  intros Hout Hmod. cbv zeta.
  unfold onUnlink, typesFilePath. rewrite Hmod, Hout. cbn [negb isAuto pathJoin].
  unfold bind, change, log, print, ret, record.
  destruct (String.eqb out "auto"); cbn [fs events fst snd];
    match goal with
    | |- context [existsSync ?t (fs w)] =>
        destruct (existsSync t (fs w)) eqn:Hex;
        [destruct (unlinkSync t (fs w)) eqn:Hun|]
    end; cbn [fs events fst snd];
    rewrite ?calls_app; cbn [calls]; rewrite ?app_nil_r, <- ?app_assoc;
    repeat split; try discriminate; try reflexivity.
Qed.

(** C7 fails on the code when [--output] is not given: the handler hands
    [undefined] to [path.join], which throws; the artifact is neither looked
    for nor deleted. *)
Theorem C7_unlink_without_output_throws (options : CliOptions)
  (filePath : string) (w : World FS)
  (Hout : cli_output options = None)
  (Hmod : moduleCssFilePattern filePath = true) :
  onUnlink cwd options filePath w = (Throw undefinedPathError, w) /\
  output (construct (generatorOptions "*" options)) = "auto".
Proof.
  unfold onUnlink, typesFilePath, generatorOptions, construct.
  cbn [opt_output output]. rewrite Hmod, Hout. split; reflexivity.
Qed.

End Watch.

(** ** Runs on the in-memory file tree *)

(** C6 as stated fails twice.  With the pattern [src//*.css] the filter is
    empty and ['.'] is watched although it is not the directory of a found
    file; with the pattern [src/**/*.module.css] the filter is [**], not the
    first segment [src], so [src] is not watched although it contains that
    segment. *)
Lemma C6_counterexample :
  (projectDir "src//*.css" = "" /\
   In "." (collectDirs (projectDir "src//*.css") ["src/a.css"]) /\
   ~ Spec.statedWatched "src//*.css" ["src/a.css"] ".")
  /\
  (projectDir "src/**/*.module.css" = "**" /\
   Spec.firstPathSegment "src/**/*.module.css" = "src" /\
   collectDirs (projectDir "src/**/*.module.css")
     ["src/ui/Button.module.css"] = ["src/ui"] /\
   Spec.statedWatched "src/**/*.module.css" ["src/ui/Button.module.css"] "src").
Proof.
  split.
  - split; [reflexivity|]. split; [vm_compute; auto|].
    intros (f & [<-|[]] & [E|(_ & E & _)]); vm_compute in E; discriminate.
  - split; [reflexivity|]. split; [reflexivity|]. split; [reflexivity|].
    exists "src/ui/Button.module.css". split; [now left|]. right.
    split; [|split; [reflexivity | right; reflexivity]].
    change (Spec.ProperAncestor "src/ui" (Path.dirname "src/ui")).
    now constructor.
Qed.

Lemma C7_unlink_without_output_throws_witness :
  cli_output Mem.noOptions = None /\
  moduleCssFilePattern "Button.module.scss" = true /\
  onUnlink ["home"; "dev"; "app"] Mem.noOptions "Button.module.scss"
    (Mem.start [("Button.module.scss", "btn")]) =
  (Throw undefinedPathError, Mem.start [("Button.module.scss", "btn")]).
Proof.
  split; [reflexivity|]. split; [reflexivity|].
  exact (proj1 (C7_unlink_without_output_throws ["home"; "dev"; "app"]
                  Mem.noOptions "Button.module.scss"
                  (Mem.start [("Button.module.scss", "btn")])
                  eq_refl eq_refl)).
Defined.

Lemma C10_named_empty_set_witness :
  let w := Mem.start [("empty.module.css", "")] in
  exportType Mem.namedOptions = ExportNamed /\
  loadResult "empty.module.css" (fs w) = Ok "" /\
  postcssModules "" "empty.module.css" (fs w) = Ok [] /\
  mkdirSync (Path.dirname (getOutputPath [] Mem.namedOptions
                                         "empty.module.css"))
            (fs w) = Ok (fs w) /\
  generateTypeDefinition Mem.namedOptions [] = "" /\
  artifacts (events (snd (processFile [] Mem.namedOptions "empty.module.css" w))) =
  [("empty.module.css.d.ts", "")].
Proof.
  cbv zeta. do 4 (split; [reflexivity|]).
  exact (C10_named_empty_set [] Mem.namedOptions "empty.module.css" ""
           (Mem.start [("empty.module.css", "")])
           [("empty.module.css", "")] eq_refl eq_refl eq_refl eq_refl).
Defined.

(** A batch of three files of which the second cannot be read: the two
    others get their artifacts, one failure is reported, the run completes. *)
Example batch_of_three :
  let run := generate [] (defaults "*.module.css") (Mem.start Mem.tree3) in
  fst run = Ok tt /\
  outcomes (events (snd run)) =
    [("a.module.css", true); ("b.module.css", false); ("c.module.css", true)] /\
  reported (events (snd run)) =
    [("b.module.css", Error "EACCES: b.module.css")] /\
  map fst (artifacts (events (snd run))) =
    ["a.module.css.d.ts"; "c.module.css.d.ts"].
Proof. cbv zeta. repeat split; vm_compute; reflexivity. Qed.

(** A failing discovery ends the run. *)
Example discovery_failure :
  generate [] (defaults "") (Mem.start Mem.tree3) =
  (Throw (TypeError "invalid pattern"),
   {| fs := Mem.tree3; events := [Called (CallGlob "")] |}).
Proof. vm_compute. reflexivity. Qed.

(** With [--output] given the handler deletes the artifact when it is
    there and does nothing when it is not. *)
Example unlink_with_output :
  let options :=
    {| cli_output := Some "auto"; cli_watch := Some true;
       cli_exportType := Some ExportDefault;
       cli_nameFormat := Some CamelCase; cli_debug := None |} in
  let present := Mem.start [("/w/a.module.css.d.ts", "x")] in
  let absent := Mem.start [] in
  fst (onUnlink ["w"] options "a.module.css" present) = Ok tt /\
  fs (snd (onUnlink ["w"] options "a.module.css" present)) = [] /\
  onUnlink ["w"] options "a.module.css" absent =
  (Ok tt, {| fs := [];
             events := [Called (CallExists "/w/a.module.css.d.ts")] |}).
Proof. cbv zeta. repeat split; vm_compute; reflexivity. Qed.

(* ===================================================================== *)
(** * Further properties of the code                                      *)
(* ===================================================================== *)

(** ** The constructor *)

Lemma orString_truthy (x : option string) (d : string) :
  Js.truthy d = true -> Js.truthy (orString x d) = true.
Proof.
  intros Hd. destruct x as [[|c r]|]; cbn; auto.
Qed.

Lemma orString_fixed (s d : string) :
  Js.truthy s = true -> orString (Some s) d = s.
Proof. intros Hs. unfold orString. now rewrite Hs. Qed.

Lemma orBool_fixed (b : bool) : orBool (Some b) false = b.
Proof. destruct b; reflexivity. Qed.

(** X1: the constructor leaves no field unresolved: the output option of
    the resolved options is never the empty string (a missing or empty
    output becomes ['auto']), and constructing again from resolved options
    changes nothing. *)
Theorem X1_construct_resolves (given : GeneratorOptions) :
  output (construct given) <> "" /\
  (opt_output given = None \/ opt_output given = Some "" ->
   output (construct given) = "auto") /\
  construct (asGiven (construct given)) = construct given.
Proof.
  assert (Hout : Js.truthy (output (construct given)) = true).
  { cbn [output construct]. now apply orString_truthy. }
  split; [intros E; rewrite E in Hout; discriminate|].
  split; [intros [E|E]; cbn [output construct]; now rewrite E|].
  unfold construct at 1, asGiven.
  cbn [opt_pattern opt_output opt_watch opt_exportType opt_nameFormat
       opt_debug orElse].
  rewrite (orString_fixed _ _ Hout), !orBool_fixed.
  destruct (construct given); reflexivity.
Qed.

Lemma X1_construct_resolves_witness :
  let given :=
    {| opt_pattern := "**/*.css"; opt_output := Some ""; opt_watch := None;
       opt_exportType := None; opt_nameFormat := None; opt_debug := None |} in
  opt_output given = Some "" /\ output (construct given) = "auto".
Proof.
  cbv zeta. split; [reflexivity|].
  apply (proj1 (proj2 (X1_construct_resolves _))). right. reflexivity.
Defined.

(** ** Characters *)

Ltac all_chars c :=
  destruct c as [[] [] [] [] [] [] [] []]; vm_compute; try reflexivity;
  try discriminate; auto.

Lemma isDelim_lowerChar (c : ascii) : isDelim (Js.lowerChar c) = isDelim c.
Proof. all_chars c. Qed.

Lemma isDelim_upperChar (c : ascii) : isDelim (Js.upperChar c) = isDelim c.
Proof. all_chars c. Qed.

Lemma lowerChar_idem (c : ascii) : Js.lowerChar (Js.lowerChar c) = Js.lowerChar c.
Proof. all_chars c. Qed.

Lemma isUpper_lowerChar (c : ascii) : Js.isUpper (Js.lowerChar c) = false.
Proof. all_chars c. Qed.

(** A lower-cased character that may start an identifier and is no
    delimiter cannot start a shouty segment. *)
Lemma lowered_head_not_shouty (x : ascii) :
  let c := Js.lowerChar x in
  (isLetter c || Ascii.eqb c "_"%char || Ascii.eqb c "$"%char) = true ->
  isDelim c = false ->
  (Js.isUpper c || Js.isDigit c || Ascii.eqb c "_"%char) = false.
Proof. all_chars x. Qed.



Lemma allChars_app (p : ascii -> bool) (a b : string) :
  Js.allChars p (a ++ b) = Js.allChars p a && Js.allChars p b.
Proof.
  induction a as [|x a IH]; simpl; [reflexivity|].
  now rewrite IH, andb_assoc.
Qed.

Lemma allChars_mapChars (p : ascii -> bool) (f : ascii -> ascii) (s : string) :
  (forall c, p (f c) = p c) ->
  Js.allChars p (Js.mapChars f s) = Js.allChars p s.
Proof.
  intros Hf. induction s as [|x s IH]; simpl; [reflexivity|].
  now rewrite Hf, IH.
Qed.

(** ** More on formatClassName *)

Lemma segments_clean (name : string) :
  Forall (fun seg => Js.truthy seg = true /\ delimFree seg = true)
         (Spec.segments name).
Proof. apply segmentsFrom_clean. reflexivity. Qed.

Lemma delimFree_firstSegment (seg : string) :
  delimFree seg = true -> delimFree (Spec.firstSegment seg) = true.
Proof.
  unfold delimFree, Spec.firstSegment. intros Hseg.
  destruct (isShouty seg).
  - rewrite allChars_mapChars; [exact Hseg|].
    intros c. now rewrite isDelim_lowerChar.
  - destruct seg as [|c r]; [reflexivity|]. simpl in *.
    now rewrite isDelim_lowerChar.
Qed.

Lemma delimFree_laterSegment (seg : string) :
  delimFree seg = true -> delimFree (Spec.laterSegment seg) = true.
Proof.
  unfold delimFree, Spec.laterSegment. intros Hseg.
  destruct seg as [|c r]; [reflexivity|].
  simpl in Hseg. apply andb_true_iff in Hseg as [Hc Hr].
  cbn [Js.allChars]. rewrite isDelim_upperChar, Hc. cbn [andb].
  destruct (isShouty (String c r)); [|exact Hr].
  rewrite allChars_mapChars; [exact Hr|].
  intros d. now rewrite isDelim_lowerChar.
Qed.

Lemma delimFree_concat (parts : list string) :
  Forall (fun s => delimFree s = true) parts ->
  delimFree (String.concat "" parts) = true.
Proof.
  induction parts as [|a r IH]; intros Hall; [reflexivity|].
  inversion Hall as [|? ? Ha Hr]; subst.
  destruct r as [|b r'].
  - exact Ha.
  - change (String.concat "" (a :: b :: r'))
      with (a ++ "" ++ String.concat "" (b :: r')).
    unfold delimFree in *. rewrite !allChars_app, Ha, (IH Hr). reflexivity.
Qed.

Lemma delimFree_convert (segs : list string) :
  Forall (fun seg => Js.truthy seg = true /\ delimFree seg = true) segs ->
  delimFree (Spec.convert segs) = true.
Proof.
  intros Hall. destruct segs as [|p ps]; [reflexivity|].
  inversion Hall as [|? ? [_ Hp] Hps]; subst.
  unfold Spec.convert. apply delimFree_concat. constructor.
  - now apply delimFree_firstSegment.
  - apply Forall_map. eapply Forall_impl; [|exact Hps].
    intros seg [_ Hseg]. now apply delimFree_laterSegment.
Qed.

Lemma quote_not_identifier (s : string) : isIdentifier (quote s) = false.
Proof. reflexivity. Qed.

(** The converted segments start with a lower-cased character. *)
Lemma convert_head (p : string) (ps : list string) :
  Js.truthy p = true ->
  exists x t, Spec.convert (p :: ps) = String (Js.lowerChar x) t.
Proof.
  intros Hp. destruct p as [|x r]; [discriminate|].
  assert (Hfirst : exists t, Spec.firstSegment (String x r)
                             = String (Js.lowerChar x) t).
  { unfold Spec.firstSegment. destruct (isShouty (String x r));
      eexists; reflexivity. }
  destruct Hfirst as [t Ht]. exists x. unfold Spec.convert. rewrite Ht.
  destruct (map Spec.laterSegment ps) as [|b r']; eexists; reflexivity.
Qed.

Lemma segmentsFrom_delimFree (s cur : string) :
  delimFree s = true ->
  Spec.segmentsFrom cur s =
  if Js.truthy (cur ++ s) then [cur ++ s] else [].
Proof.
  revert cur. induction s as [|c r IH]; intros cur Hs.
  - cbn [Spec.segmentsFrom]. now rewrite append_nil_r.
  - unfold delimFree in Hs. simpl in Hs.
    apply andb_true_iff in Hs as [Hc Hr]. apply negb_true_iff in Hc.
    cbn [Spec.segmentsFrom]. rewrite Hc, (IH _ Hr), append_assoc.
    reflexivity.
Qed.

Lemma segmentsFrom_onlyDelims (s : string) :
  onlyDelims s = true -> Spec.segmentsFrom "" s = [].
Proof.
  induction s as [|c r IH]; intros Hs; [reflexivity|].
  unfold onlyDelims in Hs. simpl in Hs.
  apply andb_true_iff in Hs as [Hc Hr].
  cbn [Spec.segmentsFrom Js.truthy]. rewrite Hc. now apply IH.
Qed.

(** What camelCase gives for a name with a segment. *)
Lemma formatCamelCase_segments (name p : string) (ps : list string) :
  Spec.segments name = p :: ps ->
  formatCamelCase name = Spec.quoteIfInvalid (Spec.convert (p :: ps)).
Proof.
  intros Hseg. rewrite formatCamelCase_spec, Hseg.
  unfold Spec.camelCase. now rewrite Hseg.
Qed.

Lemma formatCamelCase_delimFree (name : string) :
  Spec.segments name <> [] -> delimFree (formatCamelCase name) = true.
Proof.
  intros Hne. pose proof (segments_clean name) as Hclean.
  destruct (Spec.segments name) as [|p ps] eqn:Hseg; [congruence|].
  rewrite (formatCamelCase_segments _ _ _ Hseg).
  pose proof (delimFree_convert _ Hclean) as Hfree.
  unfold Spec.quoteIfInvalid.
  destruct (isIdentifier (Spec.convert (p :: ps))); [exact Hfree|].
  unfold delimFree in *. rewrite !allChars_app, Hfree. reflexivity.
Qed.

Lemma formatCamelCase_idem (name : string) :
  isIdentifier (formatCamelCase name) = true ->
  formatCamelCase (formatCamelCase name) = formatCamelCase name.
Proof.
  intros Hid. pose proof (segments_clean name) as Hclean.
  destruct (Spec.segments name) as [|p ps] eqn:Hseg.
  - assert (E : formatCamelCase name = name)
      by (rewrite formatCamelCase_spec, Hseg; reflexivity).
    rewrite E. exact E.
  - rewrite (formatCamelCase_segments _ _ _ Hseg) in *.
    pose proof (delimFree_convert _ Hclean) as Hfree.
    inversion Hclean as [|? ? [Hp _] _]; subst.
    destruct (convert_head p ps Hp) as (x & t & Hhead).
    unfold Spec.quoteIfInvalid in *.
    destruct (isIdentifier (Spec.convert (p :: ps))) eqn:Hcamel;
      [|discriminate].
    rewrite Hhead in *.
    rewrite formatCamelCase_spec. unfold Spec.segments.
    rewrite (segmentsFrom_delimFree _ "" Hfree).
    cbn [append Js.truthy]. unfold Spec.camelCase, Spec.segments.
    rewrite (segmentsFrom_delimFree _ "" Hfree).
    cbn [append Js.truthy Spec.convert map String.concat].
    assert (Hshouty : isShouty (String (Js.lowerChar x) t) = false).
    { unfold isShouty. cbn [Js.truthy Js.allChars andb].
      rewrite lowered_head_not_shouty; [reflexivity | |].
      - cbn [isIdentifier] in Hcamel.
        now apply andb_true_iff in Hcamel as [Hc _].
      - unfold delimFree in Hfree. cbn [Js.allChars] in Hfree.
        apply andb_true_iff in Hfree as [Hc _]. now apply negb_true_iff in Hc. }
    unfold Spec.firstSegment. rewrite Hshouty, lowerChar_idem.
    unfold Spec.quoteIfInvalid. now rewrite Hcamel.
Qed.


(** What the case mappings keep: a property of characters that they do
    not change is kept by the conversion of the segments. *)
Section Keeps.
Variable keep : ascii -> bool.
Hypothesis keep_lower : forall c, keep (Js.lowerChar c) = keep c.
Hypothesis keep_upper : forall c, keep (Js.upperChar c) = keep c.

Lemma segmentsFrom_keeps (s cur : string) :
  Js.allChars keep cur = true -> Js.allChars keep s = true ->
  forallb (Js.allChars keep) (Spec.segmentsFrom cur s) = true.
Proof.
  revert cur. induction s as [|c r IH]; intros cur Hcur Hs.
  - cbn [Spec.segmentsFrom]. destruct (Js.truthy cur); [|reflexivity].
    cbn [forallb]. now rewrite Hcur.
  - simpl in Hs. apply andb_true_iff in Hs as [Hc Hr].
    cbn [Spec.segmentsFrom]. destruct (isDelim c).
    + destruct (Js.truthy cur); cbn [forallb]; rewrite ?Hcur;
        now apply IH.
    + apply IH; [|exact Hr]. rewrite allChars_app, Hcur.
      cbn [Js.allChars]. now rewrite Hc.
Qed.

Lemma firstSegment_keeps (seg : string) :
  Js.allChars keep seg = true ->
  Js.allChars keep (Spec.firstSegment seg) = true.
Proof.
  unfold Spec.firstSegment. intros Hseg. destruct (isShouty seg).
  - now rewrite allChars_mapChars.
  - destruct seg as [|c r]; [reflexivity|]. simpl in *.
    now rewrite keep_lower.
Qed.

Lemma laterSegment_keeps (seg : string) :
  Js.allChars keep seg = true ->
  Js.allChars keep (Spec.laterSegment seg) = true.
Proof.
  unfold Spec.laterSegment. intros Hseg.
  destruct seg as [|c r]; [reflexivity|].
  simpl in Hseg. apply andb_true_iff in Hseg as [Hc Hr].
  cbn [Js.allChars]. rewrite keep_upper, Hc. cbn [andb].
  destruct (isShouty (String c r)); [|exact Hr].
  now rewrite allChars_mapChars.
Qed.

Lemma concat_keeps (parts : list string) :
  forallb (Js.allChars keep) parts = true ->
  Js.allChars keep (String.concat "" parts) = true.
Proof.
  induction parts as [|a r IH]; intros Hall; [reflexivity|].
  cbn [forallb] in Hall. apply andb_true_iff in Hall as [Ha Hr].
  destruct r as [|b r'].
  - exact Ha.
  - change (String.concat "" (a :: b :: r'))
      with (a ++ "" ++ String.concat "" (b :: r')).
    rewrite !allChars_app, Ha, (IH Hr). reflexivity.
Qed.

Lemma convert_keeps (name : string) :
  Js.allChars keep name = true ->
  Js.allChars keep (Spec.convert (Spec.segments name)) = true.
Proof.
  intros Hname.
  pose proof (segmentsFrom_keeps name "" eq_refl Hname) as Hsegs.
  fold (Spec.segments name) in Hsegs.
  destruct (Spec.segments name) as [|p ps]; [reflexivity|].
  cbn [forallb] in Hsegs. apply andb_true_iff in Hsegs as [Hp Hps].
  unfold Spec.convert. apply concat_keeps. cbn [forallb].
  rewrite (firstSegment_keeps _ Hp). cbn [andb].
  clear Hp. induction ps as [|q r IH]; [reflexivity|].
  cbn [forallb map] in *. apply andb_true_iff in Hps as [Hq Hr].
  now rewrite (laterSegment_keeps _ Hq), (IH Hr).
Qed.

End Keeps.

Lemma safeChar_lowerChar (c : ascii) : safeChar (Js.lowerChar c) = safeChar c.
Proof. all_chars c. Qed.

Lemma safeChar_upperChar (c : ascii) : safeChar (Js.upperChar c) = safeChar c.
Proof. all_chars c. Qed.

Lemma ascii_lowerChar (c : ascii) :
  (Js.code (Js.lowerChar c) <? 128)%nat = (Js.code c <? 128)%nat.
Proof. all_chars c. Qed.

Lemma ascii_upperChar (c : ascii) :
  (Js.code (Js.upperChar c) <? 128)%nat = (Js.code c <? 128)%nat.
Proof. all_chars c. Qed.

(** The text a formatted name wraps in quotes, or stands for. *)
Lemma formatClassName_cases (o : Options) (name : string) :
  (nameFormat o = CamelCase -> Spec.segments name <> []) ->
  exists body,
    (body = name \/ body = Spec.convert (Spec.segments name)) /\
    ((formatClassName o name = body /\ isIdentifier body = true) \/
     (formatClassName o name = quote body /\
      (nameFormat o = Dashes \/ isIdentifier body = false))).
Proof.
  intros Hseg. unfold formatClassName.
  destruct (nameFormat o) eqn:Hfmt.
  - specialize (Hseg eq_refl).
    exists (Spec.convert (Spec.segments name)). split; [now right|].
    rewrite formatCamelCase_spec. unfold Spec.camelCase, Spec.quoteIfInvalid.
    destruct (Spec.segments name) as [|p ps] eqn:E; [congruence|].
    destruct (isIdentifier (Spec.convert (p :: ps))) eqn:Hid.
    + left. now split.
    + right. split; [reflexivity | now right].
  - exists name. split; [now left|]. right. split; [reflexivity | now left].
  - exists name. split; [now left|].
    destruct (isIdentifier name) eqn:Hid.
    + left. now split.
    + right. split; [reflexivity | now right].
Qed.

(** X2: for a name of ASCII characters without single quote, backslash,
    line feed and carriage return (and, under ['camelCase'], with a
    segment), the formatted name is a bare identifier, or it is a text
    between two single quotes that itself holds none of those characters,
    so that the quotes delimit a well-formed string literal; under
    ['camelCase'] and ['original'] the text is quoted only when it is not an
    identifier. *)
Theorem X2_formatted_is_a_valid_key (o : Options) (name : string)
  (Hascii : isAscii name = true)
  (Hsafe : literalSafe name = true)
  (Hseg : nameFormat o = CamelCase -> Spec.segments name <> []) :
  isIdentifier (formatClassName o name) = true \/
  exists body,
    formatClassName o name = "'" ++ body ++ "'" /\
    literalSafe body = true /\
    isAscii body = true /\
    (nameFormat o = Dashes \/ isIdentifier body = false).
Proof.
  destruct (formatClassName_cases o name Hseg)
    as (body & Hbody & [[Hsame Hid]|[Hquoted Hwhy]]).
  - left. now rewrite Hsame.
  - right. exists body. split; [exact Hquoted|].
    destruct Hbody as [->| ->].
    + now repeat split.
    + repeat split; try exact Hwhy.
      * apply convert_keeps;
          [apply safeChar_lowerChar | apply safeChar_upperChar | exact Hsafe].
      * apply (convert_keeps (fun c => (Js.code c <? 128)%nat));
          [apply ascii_lowerChar | apply ascii_upperChar | exact Hascii].
Qed.

Lemma X2_formatted_is_a_valid_key_witness :
  isAscii "123-invalid" = true /\
  literalSafe "123-invalid" = true /\
  (nameFormat (defaults "*.css") = CamelCase ->
   Spec.segments "123-invalid" <> []) /\
  (isIdentifier (formatClassName (defaults "*.css") "123-invalid") = true \/
   exists body,
     formatClassName (defaults "*.css") "123-invalid" = "'" ++ body ++ "'" /\
     literalSafe body = true /\
     isAscii body = true /\
     (nameFormat (defaults "*.css") = Dashes \/ isIdentifier body = false)).
Proof.
  assert (H : nameFormat (defaults "*.css") = CamelCase ->
              Spec.segments "123-invalid" <> []).
  { intros _. vm_compute. discriminate. }
  split; [reflexivity|]. split; [reflexivity|]. split; [exact H|].
  exact (X2_formatted_is_a_valid_key (defaults "*.css") "123-invalid"
           eq_refl eq_refl H).
Defined.

(** X3: under ['camelCase'] a name made of ['-'] and ['_'] only has no
    segment and is returned as it is; when it starts with ['-'] the
    returned token is neither a bare identifier nor a quoted literal. *)
Theorem X3_delimiters_only_name (o : Options) (name : string)
  (Hfmt : nameFormat o = CamelCase)
  (Honly : onlyDelims name = true) :
  formatClassName o name = name /\
  (Js.startsWith "-" name = true ->
   isIdentifier (formatClassName o name) = false /\
   ~ isQuoted (formatClassName o name)).
Proof.
  assert (Hsame : formatClassName o name = name).
  { unfold formatClassName. rewrite Hfmt, formatCamelCase_spec.
    unfold Spec.segments. now rewrite (segmentsFrom_onlyDelims _ Honly). }
  split; [exact Hsame|]. rewrite Hsame. intros Hdash.
  destruct name as [|c r]; [discriminate|].
  cbn [Js.startsWith] in Hdash. apply andb_true_iff in Hdash as [Hc _].
  apply Ascii.eqb_eq in Hc. subst c. split; [reflexivity|].
  intros [body E]. discriminate.
Qed.

Lemma X3_delimiters_only_name_witness :
  nameFormat (defaults "*.css") = CamelCase /\
  onlyDelims "--" = true /\ Js.startsWith "-" "--" = true /\
  formatClassName (defaults "*.css") "--" = "--" /\
  isIdentifier (formatClassName (defaults "*.css") "--") = false.
Proof.
  do 3 (split; [reflexivity|]).
  pose proof (X3_delimiters_only_name (defaults "*.css") "--"
                eq_refl eq_refl) as [Hsame Hbad].
  split; [exact Hsame | exact (proj1 (Hbad eq_refl))].
Defined.

(** X4: under ['camelCase'] no ['-'] and no ['_'] is left in the formatted
    name of a name of ASCII characters that has a segment. *)
Theorem X4_camelCase_removes_delimiters (o : Options) (name : string)
  (Hfmt : nameFormat o = CamelCase)
  (Hascii : isAscii name = true)
  (Hseg : Spec.segments name <> []) :
  delimFree (formatClassName o name) = true.
Proof.
  unfold formatClassName. rewrite Hfmt. now apply formatCamelCase_delimFree.
Qed.

Lemma X4_camelCase_removes_delimiters_witness :
  nameFormat (defaults "*.css") = CamelCase /\
  isAscii "nav__item--is_ACTIVE" = true /\
  Spec.segments "nav__item--is_ACTIVE" <> [] /\
  delimFree (formatClassName (defaults "*.css") "nav__item--is_ACTIVE") = true.
Proof.
  assert (H : Spec.segments "nav__item--is_ACTIVE" <> [])
    by (vm_compute; discriminate).
  split; [reflexivity|]. split; [reflexivity|]. split; [exact H|].
  exact (X4_camelCase_removes_delimiters (defaults "*.css")
           "nav__item--is_ACTIVE" eq_refl eq_refl H).
Defined.

Lemma formatClassName_ascii (o : Options) (name : string) :
  isAscii name = true -> isAscii (formatClassName o name) = true.
Proof.
  intros Hname.
  assert (Hquote : forall s, isAscii s = true -> isAscii (quote s) = true).
  { intros s Hs. unfold quote, isAscii in *.
    rewrite !allChars_app, Hs. reflexivity. }
  assert (Hconv : isAscii (Spec.convert (Spec.segments name)) = true).
  { apply (convert_keeps (fun c => (Js.code c <? 128)%nat));
      [apply ascii_lowerChar | apply ascii_upperChar | exact Hname]. }
  unfold formatClassName. destruct (nameFormat o).
  - rewrite formatCamelCase_spec. unfold Spec.camelCase, Spec.quoteIfInvalid.
    destruct (Spec.segments name) as [|p ps]; [exact Hname|].
    destruct (isIdentifier (Spec.convert (p :: ps)));
      [exact Hconv | now apply Hquote].
  - now apply Hquote.
  - destruct (isIdentifier name); [exact Hname | now apply Hquote].
Qed.

(** X5: under ['camelCase'] the formatted name of a name of ASCII
    characters is again of ASCII characters, and when it is a bare
    identifier it is a fixed point: formatting it again gives it back. *)
Theorem X5_camelCase_idempotent_on_identifiers (o : Options) (name : string)
  (Hfmt : nameFormat o = CamelCase)
  (Hascii : isAscii name = true)
  (Hid : isIdentifier (formatClassName o name) = true) :
  isAscii (formatClassName o name) = true /\
  formatClassName o (formatClassName o name) = formatClassName o name.
Proof.
  split; [now apply formatClassName_ascii|].
  unfold formatClassName in *. rewrite Hfmt in *.
  now apply formatCamelCase_idem.
Qed.

Lemma X5_camelCase_idempotent_on_identifiers_witness :
  nameFormat (defaults "*.css") = CamelCase /\
  isAscii "BUTTON_PRIMARY" = true /\
  isIdentifier (formatClassName (defaults "*.css") "BUTTON_PRIMARY") = true /\
  formatClassName (defaults "*.css")
    (formatClassName (defaults "*.css") "BUTTON_PRIMARY") = "buttonPrimary".
Proof.
  split; [reflexivity|]. split; [reflexivity|]. split; [reflexivity|].
  exact (proj2 (X5_camelCase_idempotent_on_identifiers (defaults "*.css")
                  "BUTTON_PRIMARY" eq_refl eq_refl eq_refl)).
Defined.




(** ** The class-name set *)

Lemma setAdd_present (x : string) (xs : list string) :
  In x xs -> setAdd x xs = xs.
Proof.
  intros Hx. unfold setAdd.
  now rewrite (proj2 (existsb_eqb_In x xs) Hx).
Qed.

Lemma setAdd_absent (x : string) (xs : list string) :
  ~ In x xs -> setAdd x xs = (xs ++ [x])%list.
Proof.
  intros Hx. unfold setAdd.
  destruct (existsb (String.eqb x) xs) eqn:E; [|reflexivity].
  now apply existsb_eqb_In in E.
Qed.

Lemma fold_setAdd (keys : list string) :
  forall acc,
    NoDup acc ->
    NoDup (fold_left (fun a key => setAdd key a) keys acc) /\
    forall x, In x (fold_left (fun a key => setAdd key a) keys acc) <->
              In x acc \/ In x keys.
Proof.
  induction keys as [|k r IH]; intros acc Hnd; cbn [fold_left].
  - split; [exact Hnd|]. intros x. cbn [In]. tauto.
  - destruct (IH (setAdd k acc) (setAdd_NoDup k acc Hnd)) as [Hnd' Hin].
    split; [exact Hnd'|]. intros x. rewrite Hin, setAdd_In. cbn [In].
    split; intros; intuition (subst; auto).
Qed.

Lemma fold_setAdd_known (more acc : list string) :
  (forall k, In k more -> In k acc) ->
  fold_left (fun a key => setAdd key a) more acc = acc.
Proof.
  induction more as [|k r IH]; intros Hall; [reflexivity|].
  cbn [fold_left]. rewrite setAdd_present by (apply Hall; now left).
  apply IH. intros k' Hk'. apply Hall. now right.
Qed.

Lemma fold_setAdd_fresh (keys : list string) :
  forall acc, NoDup (acc ++ keys) ->
    fold_left (fun a key => setAdd key a) keys acc = (acc ++ keys)%list.
Proof.
  induction keys as [|k r IH]; intros acc Hnd; cbn [fold_left].
  - now rewrite app_nil_r.
  - assert (Hk : ~ In k acc).
    { apply NoDup_remove_2 in Hnd. intros Hin. apply Hnd.
      apply in_or_app. now left. }
    rewrite (setAdd_absent _ _ Hk), IH; rewrite <- app_assoc; [reflexivity|].
    exact Hnd.
Qed.

(** X7: the class names collected from the keys handed to [getJSON] hold
    every key exactly once; keys without repetition are kept in their order,
    and keys that were already seen change nothing. *)
Theorem X7_class_names_are_deduplicated (keys : list string) :
  NoDup (classNamesOf keys) /\
  (forall x, In x (classNamesOf keys) <-> In x keys) /\
  (NoDup keys -> classNamesOf keys = keys) /\
  (forall more, (forall k, In k more -> In k keys) ->
     classNamesOf (keys ++ more) = classNamesOf keys).
Proof.
  unfold classNamesOf.
  destruct (fold_setAdd keys [] (NoDup_nil _)) as [Hnd Hin].
  split; [exact Hnd|]. split; [intros x; rewrite Hin; cbn [In]; tauto|].
  split; [intros Hk; now apply (fold_setAdd_fresh keys [])|].
  intros more Hmore. rewrite fold_left_app. apply fold_setAdd_known.
  intros k Hk. apply Hin. right. now apply Hmore.
Qed.

Lemma X7_class_names_are_deduplicated_witness :
  NoDup ["btn"; "nav"] /\
  classNamesOf ["btn"; "nav"] = ["btn"; "nav"] /\
  classNamesOf (["btn"; "nav"] ++ ["nav"; "btn"]) = classNamesOf ["btn"; "nav"].
Proof.
  assert (Hnd : NoDup ["btn"; "nav"]).
  { repeat constructor; cbn [In]; intros H; intuition discriminate. }
  split; [exact Hnd|].
  destruct (X7_class_names_are_deduplicated ["btn"; "nav"])
    as (_ & _ & Hsame & Hmore).
  split; [exact (Hsame Hnd)|].
  apply Hmore. cbn [In]. intros k Hk. intuition.
Defined.

(** ** The watch filter and the loader *)

Lemma mapChars_app (f : ascii -> ascii) (a b : string) :
  Js.mapChars f (a ++ b) = Js.mapChars f a ++ Js.mapChars f b.
Proof. induction a as [|x a IH]; simpl; [reflexivity | now rewrite IH]. Qed.

Lemma endsWith_suffix (suffix stem : string) :
  Js.endsWith suffix (stem ++ suffix) = true.
Proof. unfold Js.endsWith. rewrite rev_app. apply startsWith_refl_app. Qed.



Lemma extname_module_scss (stem : string) :
  Path.extname (stem ++ ".module.scss") = ".scss".
Proof. unfold Path.extname. rewrite rev_app. reflexivity. Qed.

Lemma extname_module_sass (stem : string) :
  Path.extname (stem ++ ".module.sass") = ".sass".
Proof. unfold Path.extname. rewrite rev_app. reflexivity. Qed.

Lemma extname_module_css (stem : string) :
  Path.extname (stem ++ ".module.css") = ".css".
Proof. unfold Path.extname. rewrite rev_app. reflexivity. Qed.


Lemma filter_accepts_suffix (stem suffix : string) :
  In (Js.toLowerCase suffix) [".module.css"; ".module.scss"; ".module.sass"] ->
  moduleCssFilePattern (stem ++ suffix) = true.
Proof.
  intros Hin. unfold moduleCssFilePattern, Js.toLowerCase in *.
  rewrite mapChars_app.
  destruct Hin as [<-|[<-|[<-|[]]]]; rewrite endsWith_suffix;
    rewrite ?orb_true_r; reflexivity.
Qed.

Section Loader.
Context {FS : Type} `{Collaborators FS}.

(** X8: a path with one of the three module-stylesheet endings passes the
    watch filter, and the loader compiles it with sass when the ending is
    [.module.scss] or [.module.sass] and reads it as it is when the ending
    is [.module.css]. *)
Theorem X8_module_stylesheets_are_loaded (stem : string) (t : FS) :
  (moduleCssFilePattern (stem ++ ".module.scss") = true /\
   loadResult (stem ++ ".module.scss") t =
   sassCompile (stem ++ ".module.scss") t) /\
  (moduleCssFilePattern (stem ++ ".module.sass") = true /\
   loadResult (stem ++ ".module.sass") t =
   sassCompile (stem ++ ".module.sass") t) /\
  (moduleCssFilePattern (stem ++ ".module.css") = true /\
   loadResult (stem ++ ".module.css") t =
   readFileSync (stem ++ ".module.css") t).
Proof.
  unfold loadResult.
  rewrite extname_module_scss, extname_module_sass, extname_module_css.
  repeat split; try reflexivity;
    apply filter_accepts_suffix; cbn; auto.
Qed.


End Loader.

(** ** Artifact paths *)

Lemma filter_rejects_dts (pre : string) :
  moduleCssFilePattern (pre ++ ".d.ts") = false.
Proof.
  unfold moduleCssFilePattern, Js.toLowerCase, Js.endsWith.
  rewrite mapChars_app, rev_app. reflexivity.
Qed.

Lemma splitChar_suffix (s t : string) :
  noSlash t = true ->
  exists init piece,
    Js.splitChar Path.slash (s ++ t) = (init ++ [(piece ++ t)%string])%list.
Proof.
  intros Ht. induction s as [|c r (init & piece & IH)].
  - exists [], "". cbn [append app]. now apply splitChar_noSlash.
  - change (String c r ++ t) with (String c (r ++ t)).
    cbn [Js.splitChar]. rewrite IH.
    destruct (Ascii.eqb c Path.slash).
    + exists ("" :: init), piece. reflexivity.
    + destruct init as [|i init'].
      * exists [], (String c piece). reflexivity.
      * exists (String c i :: init'), piece. reflexivity.
Qed.

Lemma normStep_dts (b : bool) (acc : list string) (piece : string) :
  Path.normStep b acc (piece ++ ".d.ts") = (piece ++ ".d.ts") :: acc.
Proof.
  assert (Hlen : 5 <= String.length (piece ++ ".d.ts")).
  { rewrite length_append. simpl. lia. }
  assert (Hneq : forall s, String.length s < 5 ->
                 String.eqb (piece ++ ".d.ts") s = false).
  { intros s Hs. apply String.eqb_neq. intros E. rewrite E in Hlen. lia. }
  unfold Path.normStep. rewrite !Hneq by (simpl; lia). reflexivity.
Qed.

Lemma normalizeFrom_dts (b : bool) (s : string) :
  exists l piece,
    Path.normalizeFrom b [] (s ++ ".d.ts") =
    (l ++ [(piece ++ ".d.ts")%string])%list.
Proof.
  destruct (splitChar_suffix s ".d.ts" eq_refl) as (init & piece & Hsplit).
  unfold Path.normalizeFrom. rewrite Hsplit, fold_left_app.
  cbn [fold_left]. rewrite normStep_dts. cbn [List.rev].
  eexists. exists piece. reflexivity.
Qed.

(** [path.normalize] keeps the [.d.ts] ending of a path. *)
Lemma normalize_keeps_dts (s : string) :
  exists pre, Path.normalize (s ++ ".d.ts") = pre ++ ".d.ts".
Proof.
  assert (Hend : Js.endsWith "/" (s ++ ".d.ts") = false).
  { unfold Js.endsWith. rewrite rev_app. reflexivity. }
  assert (Hbody : forall b, exists body,
            Js.join "/" (Path.normalizeFrom b [] (s ++ ".d.ts"))
            = body ++ ".d.ts").
  { intros b. destruct (normalizeFrom_dts b s) as (l & piece & ->).
    rewrite <- join_snoc_suffix. eexists. reflexivity. }
  unfold Path.normalize.
  destruct (s ++ ".d.ts") as [|c0 r0] eqn:Ep.
  { destruct s; discriminate. }
  rewrite Hend.
  destruct (Hbody (negb (Path.isAbsolute (String c0 r0)))) as [body ->].
  destruct (body ++ ".d.ts") as [|d0 e0] eqn:Eb.
  { destruct body; discriminate. }
  rewrite <- Eb.
  exists ((if Path.isAbsolute (String c0 r0) then "/" else "") ++ body).
  now rewrite append_nil_r, append_assoc.
Qed.

Lemma pathJoin_keeps_dts (a b : string) :
  exists pre, Path.join a (b ++ ".d.ts") = pre ++ ".d.ts".
Proof.
  unfold Path.join.
  destruct (b ++ ".d.ts") as [|c r] eqn:Eb.
  { destruct b; discriminate. }
  rewrite <- Eb. destruct a as [|x a'].
  - apply normalize_keeps_dts.
  - rewrite <- !append_assoc. apply normalize_keeps_dts.
Qed.

Lemma getOutputPath_dts (cwd : Path.Cwd) (o : Options) (filePath : string) :
  exists pre, getOutputPath cwd o filePath = pre ++ ".d.ts".
Proof.
  unfold getOutputPath. destruct (String.eqb (output o) "auto").
  - eexists. reflexivity.
  - apply pathJoin_keeps_dts.
Qed.

(** X10: whatever the options, the working directory and the source path,
    the artifact path ends in [.d.ts] and does not pass the watch filter: a
    written artifact is never taken for a module stylesheet. *)
Theorem X10_artifacts_are_not_sources (cwd : Path.Cwd) (o : Options)
  (filePath : string) :
  Js.endsWith ".d.ts" (getOutputPath cwd o filePath) = true /\
  moduleCssFilePattern (getOutputPath cwd o filePath) = false.
Proof.
  destruct (getOutputPath_dts cwd o filePath) as [pre ->].
  split; [apply endsWith_suffix | apply filter_rejects_dts].
Qed.

(** ** What a run touches *)

Section Footprint.
Context {FS : Type} `{Collaborators FS}.
Variable cwd : Path.Cwd.

Lemma processFile_fs (o : Options) (filePath : string) (w : World FS) :
  fs (snd (processFile cwd o filePath w)) =
  match loadResult filePath (fs w) with
  | Ok css =>
      match postcssModules css filePath (fs w) with
      | Ok keys =>
          match mkdirSync (Path.dirname (getOutputPath cwd o filePath))
                          (fs w) with
          | Ok t1 =>
              match writeFileSync (getOutputPath cwd o filePath)
                      (generateTypeDefinition o (classNamesOf keys)) t1 with
              | Ok t2 => t2
              | Throw _ => t1
              end
          | Throw _ => fs w
          end
      | Throw _ => fs w
      end
  | Throw _ => fs w
  end.
Proof.
  unfold loadResult, classNamesOf. unfold_run. split_run; reflexivity.
Qed.

Lemma processFile_calls (o : Options) (filePath : string) (w : World FS) :
  exists cs,
    calls (events (snd (processFile cwd o filePath w))) =
    (calls (events w) ++ cs)%list /\
    forallb pipelineCall cs = true.
Proof.
  unfold_run. split_run; rewrite ?calls_app; cbn [calls];
    rewrite ?app_nil_r, <- ?app_assoc; cbn [app];
    eexists; (split; [reflexivity | reflexivity]).
Qed.

Lemma forEach_calls (o : Options) (files : list string) (w : World FS) :
  exists cs,
    calls (events (snd (forEach files (processFile cwd o) w))) =
    (calls (events w) ++ cs)%list /\
    forallb pipelineCall cs = true.
Proof.
  revert w. induction files as [|f r IH]; intros w.
  - exists []. cbn. now rewrite app_nil_r.
  - cbn [forEach]. unfold bind.
    pose proof (processFile_ok cwd o f w) as Hok.
    destruct (processFile_calls o f w) as (cs1 & H1 & F1).
    destruct (processFile cwd o f w) as [res w']. cbn [fst snd] in *. subst res.
    destruct (IH w') as (cs2 & H2 & F2). exists (cs1 ++ cs2)%list.
    rewrite H2, H1, app_assoc, forallb_app, F1, F2. now split.
Qed.

Lemma forEach_artifacts (o : Options) (files : list string) (w : World FS) :
  exists arts,
    artifacts (events (snd (forEach files (processFile cwd o) w))) =
    (artifacts (events w) ++ arts)%list /\
    length arts <= length files /\
    Forall (fun a => exists f, In f files /\
                       fst a = getOutputPath cwd o f) arts.
Proof.
  revert w. induction files as [|f r IH]; intros w.
  - exists []. cbn. rewrite app_nil_r. repeat split; [lia | constructor].
  - cbn [forEach]. unfold bind.
    pose proof (processFile_ok cwd o f w) as Hok.
    pose proof (processFile_artifacts cwd o f w) as Hart.
    destruct (processFile cwd o f w) as [res w']. cbn [fst snd] in *. subst res.
    destruct (IH w') as (arts & H2 & Hlen & Hall).
    set (one := match loadResult f (fs w) with
                | Ok css =>
                    match postcssModules css f (fs w) with
                    | Ok keys =>
                        match mkdirSync (Path.dirname (getOutputPath cwd o f))
                                        (fs w) with
                        | Ok _ =>
                            [(getOutputPath cwd o f,
                              generateTypeDefinition o (classNamesOf keys))]
                        | Throw _ => []
                        end
                    | Throw _ => []
                    end
                | Throw _ => []
                end) in Hart.
    assert (Hone : length one <= 1 /\
                   Forall (fun a => fst a = getOutputPath cwd o f) one).
    { subst one.
      destruct (loadResult f (fs w)) as [css|];
        [destruct (postcssModules css f (fs w)) as [keys|];
           [destruct (mkdirSync _ _)|]|];
        cbn [length]; split; try lia; repeat constructor. }
    destruct Hone as [Hone1 Hone2].
    exists (one ++ arts)%list. rewrite H2, Hart, app_assoc.
    split; [reflexivity|]. split.
    + rewrite length_app. cbn [length]. lia.
    + apply Forall_app. split.
      * eapply Forall_impl; [|exact Hone2]. intros a Ha.
        exists f. split; [now left | exact Ha].
      * eapply Forall_impl; [|exact Hall]. intros a (g & Hg & Ha).
        exists g. split; [now right | exact Ha].
Qed.

(** X11: [processFile] changes the file tree through [mkdirSync] and then
    [writeFileSync] only: a file whose load or extraction fails leaves the
    tree as it was, a failed write leaves what [mkdirSync] made, and a
    complete run leaves the tree of the write. *)
Theorem X11_processFile_tree (o : Options) (filePath : string) (w : World FS) :
  fs (snd (processFile cwd o filePath w)) =
  match loadResult filePath (fs w) with
  | Ok css =>
      match postcssModules css filePath (fs w) with
      | Ok keys =>
          match mkdirSync (Path.dirname (getOutputPath cwd o filePath))
                          (fs w) with
          | Ok t1 =>
              match writeFileSync (getOutputPath cwd o filePath)
                      (generateTypeDefinition o (classNamesOf keys)) t1 with
              | Ok t2 => t2
              | Throw _ => t1
              end
          | Throw _ => fs w
          end
      | Throw _ => fs w
      end
  | Throw _ => fs w
  end.
Proof. apply processFile_fs. Qed.

(** X12: a batch run asks the discovery once, before anything else, and
    after it only compiles, reads, extracts, makes directories and writes:
    it never asks whether a file exists and never deletes one. *)
Theorem X12_generate_calls (o : Options) (w : World FS) :
  exists cs,
    calls (events (snd (generate cwd o w))) =
    (calls (events w) ++ CallGlob (pattern o) :: cs)%list /\
    forallb pipelineCall cs = true.
Proof.
  rewrite generate_run. destruct (glob (pattern o) (fs w)) as [files|e].
  - destruct (forEach_calls o files (afterDiscovery o files w))
      as (cs & Hcs & Hall).
    exists cs. split; [|exact Hall]. rewrite Hcs.
    unfold afterDiscovery. cbn [events]. rewrite !calls_app.
    destruct (debug o); cbn [calls app]; rewrite ?calls_items;
      rewrite <- ?app_assoc; reflexivity.
  - exists []. split; [|reflexivity]. cbn [snd events]. rewrite !calls_app.
    destruct (debug o); reflexivity.
Qed.

Lemma writtenArtifacts_cons (o : Options) (f : string) (files : list string)
  (c : option string) (contents : list (option string)) :
  writtenArtifacts cwd o (f :: files) (c :: contents) =
  (match c with
   | Some text => [(getOutputPath cwd o f, text)]
   | None => []
   end ++ writtenArtifacts cwd o files contents)%list.
Proof. reflexivity. Qed.

Lemma writtenArtifacts_rejected (o : Options) (files : list string) :
  forall contents,
    Forall (fun a => moduleCssFilePattern (fst a) = false)
           (writtenArtifacts cwd o files contents).
Proof.
  induction files as [|f r IH]; intros contents; [constructor|].
  destruct contents as [|c cs]; [constructor|].
  rewrite writtenArtifacts_cons. apply Forall_app. split; [|apply IH].
  destruct c as [text|]; constructor; [|constructor].
  cbn [fst]. destruct (getOutputPath_dts cwd o f) as [pre ->].
  apply filter_rejects_dts.
Qed.

(** File by file, in the order of the discovery: nothing or one artifact,
    at the artifact path of that file. *)
Lemma forEach_artifacts_exact (o : Options) (files : list string)
  (w : World FS) :
  exists contents,
    length contents = length files /\
    artifacts (events (snd (forEach files (processFile cwd o) w))) =
    (artifacts (events w) ++ writtenArtifacts cwd o files contents)%list.
Proof.
  revert w. induction files as [|f r IH]; intros w.
  - exists []. cbn. now rewrite app_nil_r.
  - cbn [forEach]. unfold bind.
    pose proof (processFile_ok cwd o f w) as Hok.
    pose proof (processFile_artifacts cwd o f w) as Hart.
    destruct (processFile cwd o f w) as [res w']. cbn [fst snd] in *. subst res.
    destruct (IH w') as (contents & Hlen & H2).
    exists (match loadResult f (fs w) with
            | Ok css =>
                match postcssModules css f (fs w) with
                | Ok keys =>
                    match mkdirSync (Path.dirname (getOutputPath cwd o f))
                                    (fs w) with
                    | Ok _ =>
                        Some (generateTypeDefinition o (classNamesOf keys))
                    | Throw _ => None
                    end
                | Throw _ => None
                end
            | Throw _ => None
            end :: contents).
    split; [cbn [length]; now rewrite Hlen|].
    rewrite H2, Hart, writtenArtifacts_cons, <- app_assoc. f_equal. f_equal.
    destruct (loadResult f (fs w)) as [css|];
      [destruct (postcssModules css f (fs w)) as [keys|];
         [destruct (mkdirSync _ _)|]|]; reflexivity.
Qed.

(** X13: in a batch run, file by file in the order of the discovery, each
    discovered file gets nothing or exactly one artifact handed to
    [writeFileSync], at the artifact path of that very file; no artifact
    goes to a path that passes the watch filter; when the discovery fails
    nothing is written. *)
Theorem X13_generate_writes_artifacts_only (o : Options) (w : World FS) :
  match glob (pattern o) (fs w) with
  | Ok files =>
      exists contents : list (option string),
        length contents = length files /\
        artifacts (events (snd (generate cwd o w))) =
        (artifacts (events w) ++
         flat_map (fun fc =>
                     match snd fc with
                     | Some text => [(getOutputPath cwd o (fst fc), text)]
                     | None => []
                     end)
                  (combine files contents))%list /\
        Forall (fun a => moduleCssFilePattern (fst a) = false)
               (writtenArtifacts cwd o files contents)
  | Throw _ =>
      artifacts (events (snd (generate cwd o w))) = artifacts (events w) /\
      fs (snd (generate cwd o w)) = fs w
  end.
Proof.
  rewrite generate_run. destruct (glob (pattern o) (fs w)) as [files|e].
  - destruct (forEach_artifacts_exact o files (afterDiscovery o files w))
      as (contents & Hlen & Harts).
    exists contents. split; [exact Hlen|].
    split; [|apply writtenArtifacts_rejected].
    fold (writtenArtifacts cwd o files contents).
    rewrite Harts. f_equal. unfold afterDiscovery. cbn [events].
    rewrite !artifacts_app.
    assert (Hitems : forall l,
              artifacts (map (fun f => Printed ConsoleInfo (MsgItem f) None) l)
              = []).
    { induction l as [|x l IH]; [reflexivity | exact IH]. }
    destruct (debug o); cbn [artifacts]; rewrite ?Hitems;
      now rewrite ?app_nil_r.
  - cbn [snd events fs]. split; [|reflexivity].
    rewrite !artifacts_app. destruct (debug o); cbn [artifacts];
      now rewrite ?app_nil_r.
Qed.

(** X14: the unlink handler ignores a path that does not pass the watch
    filter: it returns normally, calls nothing and leaves the file tree as
    it was, also when [--output] was not given. *)
Theorem X14_unlink_ignores_other_files (options : CliOptions)
  (filePath : string) (w : World FS)
  (Hother : moduleCssFilePattern filePath = false) :
  fst (onUnlink cwd options filePath w) = Ok tt /\
  fs (snd (onUnlink cwd options filePath w)) = fs w /\
  calls (events (snd (onUnlink cwd options filePath w))) = calls (events w).
Proof.
  unfold onUnlink. rewrite Hother. cbn [negb].
  unfold whenDebug, info, print, ret, record.
  destruct (flag (cli_debug options)); cbn [fst snd fs events];
    repeat split.
  rewrite calls_app. cbn [calls]. now rewrite app_nil_r.
Qed.

(** X15: with [--output] given and not empty, the file the unlink handler
    looks for is the artifact path the generator computes for the absolute
    form of the removed path under the same options; it is unlinked when it
    exists, and nothing else is called. *)
Theorem X15_unlink_targets_the_artifact (pat : string) (options : CliOptions)
  (out filePath : string) (w : World FS)
  (Hout : cli_output options = Some out)
  (Hne : out <> "")
  (Hmod : moduleCssFilePattern filePath = true) :
  let target :=
    getOutputPath cwd (construct (generatorOptions pat options))
                  (absolutePath cwd filePath) in
  calls (events (snd (onUnlink cwd options filePath w))) =
  (calls (events w) ++
   CallExists target ::
   (if existsSync target (fs w) then [CallUnlink target] else []))%list.
Proof.
  cbv zeta.
  destruct (onUnlink_with_output cwd options out filePath w Hout Hmod)
    as [Hcalls _].
  cbv zeta in Hcalls. rewrite Hcalls.
  unfold getOutputPath, construct, generatorOptions.
  cbn [output opt_output]. rewrite Hout.
  destruct out as [|c r]; [congruence|]. reflexivity.
Qed.

End Footprint.

Lemma X14_unlink_ignores_other_files_witness :
  let run := onUnlink ["home"; "dev"] Mem.noOptions "styles/global.css"
               (Mem.start Mem.tree3) in
  moduleCssFilePattern "styles/global.css" = false /\
  fst run = Ok tt /\ fs (snd run) = Mem.tree3 /\
  calls (events (snd run)) = [].
Proof.
  cbv zeta. split; [reflexivity|].
  exact (X14_unlink_ignores_other_files ["home"; "dev"] Mem.noOptions
           "styles/global.css" (Mem.start Mem.tree3) eq_refl).
Defined.

Lemma X15_unlink_targets_the_artifact_witness :
  let options :=
    {| cli_output := Some "types"; cli_watch := Some true;
       cli_exportType := Some ExportDefault;
       cli_nameFormat := Some CamelCase; cli_debug := None |} in
  let w := Mem.start [("types/src/Button.module.scss.d.ts", "x")] in
  cli_output options = Some "types" /\ "types" <> "" /\
  moduleCssFilePattern "src/Button.module.scss" = true /\
  calls (events (snd (onUnlink ["app"] options "src/Button.module.scss" w))) =
  [CallExists "types/src/Button.module.scss.d.ts";
   CallUnlink "types/src/Button.module.scss.d.ts"].
Proof.
  cbv zeta. split; [reflexivity|]. split; [discriminate|].
  split; [reflexivity|].
  exact (X15_unlink_targets_the_artifact ["app"] "src/**/*.module.scss"
           {| cli_output := Some "types"; cli_watch := Some true;
              cli_exportType := Some ExportDefault;
              cli_nameFormat := Some CamelCase; cli_debug := None |}
           "types" "src/Button.module.scss"
           (Mem.start [("types/src/Button.module.scss.d.ts", "x")])
           eq_refl ltac:(discriminate) eq_refl).
Defined.

(** ** Relative and absolute source paths *)

Lemma splitChar_pieces (s : string) :
  forallb noSlash (Js.splitChar Path.slash s) = true.
Proof.
  induction s as [|c r IH]; [reflexivity|].
  cbn [Js.splitChar]. destruct (Ascii.eqb c Path.slash) eqn:Hc.
  - cbn [forallb]. now rewrite IH.
  - destruct (Js.splitChar Path.slash r) as [|p ps].
    + cbn [forallb]. unfold noSlash. cbn [Js.allChars]. now rewrite Hc.
    + cbn [forallb] in *. apply andb_true_iff in IH as [Hp Hps].
      unfold noSlash in *. cbn [Js.allChars]. now rewrite Hc, Hp, Hps.
Qed.

Lemma normStep_keeps_plain (acc : list string) (seg : string) :
  forallb plain acc = true -> noSlash seg = true ->
  forallb plain (Path.normStep false acc seg) = true.
Proof.
  intros Hacc Hseg. unfold Path.normStep.
  destruct (String.eqb seg "" || String.eqb seg ".") eqn:E1; [exact Hacc|].
  destruct (String.eqb seg "..") eqn:E2.
  - destruct acc as [|last before]; [reflexivity|].
    cbn [forallb] in Hacc. apply andb_true_iff in Hacc as [Hl Hb].
    destruct (String.eqb last ".."); [|exact Hb].
    cbn [forallb]. now rewrite Hl, Hb.
  - apply orb_false_iff in E1 as [E0 E1].
    cbn [forallb]. unfold plain at 1. now rewrite E0, E1, E2, Hseg, Hacc.
Qed.

Lemma fold_normStep_keeps_plain (segs acc : list string) :
  forallb plain acc = true -> forallb noSlash segs = true ->
  forallb plain (fold_left (Path.normStep false) segs acc) = true.
Proof.
  revert acc. induction segs as [|x r IH]; intros acc Hacc Hsegs; [exact Hacc|].
  cbn [forallb] in Hsegs. apply andb_true_iff in Hsegs as [Hx Hr].
  cbn [fold_left]. apply IH; [now apply normStep_keeps_plain | exact Hr].
Qed.

Lemma forallb_rev (p : string -> bool) (l : list string) :
  forallb p (List.rev l) = forallb p l.
Proof.
  induction l as [|x r IH]; [reflexivity|].
  cbn [List.rev forallb]. rewrite forallb_app, IH. cbn [forallb].
  now rewrite andb_true_r, andb_comm.
Qed.

(** Resolving against a working directory of plain components gives plain
    components. *)
Lemma resolveComps_plain (cwd : Path.Cwd) (p : string) :
  forallb plain cwd = true ->
  forallb plain (Path.resolveComps cwd p) = true.
Proof.
  intros Hcwd. unfold Path.resolveComps, Path.normalizeFrom.
  destruct (Path.isAbsolute p); rewrite forallb_rev;
    apply fold_normStep_keeps_plain; try apply splitChar_pieces;
    [reflexivity | now rewrite forallb_rev].
Qed.

Lemma normalizeFrom_showAbsolute (comps : list string) :
  forallb plain comps = true ->
  Path.normalizeFrom false [] (Path.showAbsolute comps) = comps.
Proof.
  intros Hcomps. unfold Path.normalizeFrom, Path.showAbsolute.
  destruct comps as [|c r]; [reflexivity|].
  change ("/" ++ Js.join "/" (c :: r))
    with (String Path.slash (Js.join "/" (c :: r))).
  cbn [Js.splitChar]. rewrite Ascii.eqb_refl.
  rewrite splitChar_join;
    [|discriminate | now apply forallb_plain_noSlash].
  change (fold_left (Path.normStep false) ("" :: c :: r) (List.rev []))
    with (fold_left (Path.normStep false) (c :: r) []).
  rewrite (fold_normStep_plain _ _ _ Hcomps), app_nil_r.
  apply rev_involutive.
Qed.

Lemma resolveComps_resolve (cwd : Path.Cwd) (p : string) :
  forallb plain cwd = true ->
  Path.resolveComps cwd (Path.resolve cwd p) = Path.resolveComps cwd p.
Proof.
  intros Hcwd. unfold Path.resolve.
  unfold Path.resolveComps at 1.
  change (Path.isAbsolute (Path.showAbsolute (Path.resolveComps cwd p)))
    with true.
  apply normalizeFrom_showAbsolute, resolveComps_plain, Hcwd.
Qed.

Lemma relative_absolutePath (cwd : Path.Cwd) (p : string) :
  forallb plain cwd = true ->
  Path.relative cwd (absolutePath cwd p) = Path.relative cwd p.
Proof.
  intros Hcwd. unfold absolutePath.
  destruct (Path.isAbsolute p); [reflexivity|].
  unfold Path.relative. now rewrite resolveComps_resolve.
Qed.

(** X16: under an output directory the artifact path of a source does not
    depend on whether the source path is relative, as the discovery of a
    batch run gives it, or made absolute, as the watch handlers do. *)
Theorem X16_artifact_path_of_absolute_source (cwd : Path.Cwd) (o : Options)
  (filePath : string)
  (Hcwd : forallb plain cwd = true)
  (Hout : output o <> "auto") :
  getOutputPath cwd o (absolutePath cwd filePath) =
  getOutputPath cwd o filePath.
Proof.
  unfold getOutputPath. apply String.eqb_neq in Hout. rewrite Hout.
  now rewrite relative_absolutePath.
Qed.

Lemma X16_artifact_path_of_absolute_source_witness :
  let o :=
    construct {| opt_pattern := "src/**/*.module.css";
                 opt_output := Some "types"; opt_watch := None;
                 opt_exportType := None; opt_nameFormat := None;
                 opt_debug := None |} in
  forallb plain ["home"; "dev"] = true /\ output o <> "auto" /\
  absolutePath ["home"; "dev"] "src/../src/a.module.css" =
    "/home/dev/src/a.module.css" /\
  getOutputPath ["home"; "dev"] o "/home/dev/src/a.module.css" =
  getOutputPath ["home"; "dev"] o "src/../src/a.module.css".
Proof.
  cbv zeta. split; [reflexivity|]. split; [discriminate|].
  split; [reflexivity|].
  exact (X16_artifact_path_of_absolute_source ["home"; "dev"]
           (construct {| opt_pattern := "src/**/*.module.css";
                         opt_output := Some "types"; opt_watch := None;
                         opt_exportType := None; opt_nameFormat := None;
                         opt_debug := None |})
           "src/../src/a.module.css" eq_refl ltac:(discriminate)).
Defined.

(** ** The lines of the emitted text *)

Lemma splitChar_free (sep : ascii) (c : string) :
  freeOf sep c = true -> Js.splitChar sep c = [c].
Proof.
  induction c as [|x c IH]; intros Hc; [reflexivity|].
  unfold freeOf in *. simpl in Hc. apply andb_true_iff in Hc as [Hx Hc].
  simpl. apply negb_true_iff in Hx. rewrite Hx, (IH Hc). reflexivity.
Qed.

Lemma splitChar_piece (sep : ascii) (c r : string) :
  freeOf sep c = true ->
  Js.splitChar sep (c ++ String sep r) = c :: Js.splitChar sep r.
Proof.
  induction c as [|x c IH]; intros Hc.
  - cbn [append Js.splitChar]. now rewrite Ascii.eqb_refl.
  - unfold freeOf in *. simpl in Hc. apply andb_true_iff in Hc as [Hx Hc].
    apply negb_true_iff in Hx.
    change (String x c ++ String sep r) with (String x (c ++ String sep r)).
    cbn [Js.splitChar]. rewrite Hx, (IH Hc). reflexivity.
Qed.

(** Splitting a joined list of separator-free pieces gives the pieces
    back. *)
Lemma splitChar_join_gen (sep : ascii) (pieces : list string) :
  pieces <> [] -> forallb (freeOf sep) pieces = true ->
  Js.splitChar sep (Js.join (String sep "") pieces) = pieces.
Proof.
  induction pieces as [|c r IH]; intros Hne Hall; [congruence|].
  cbn [forallb] in Hall. apply andb_true_iff in Hall as [Hc Hr].
  destruct r as [|d r'].
  - apply splitChar_free, Hc.
  - change (Js.join (String sep "") (c :: d :: r'))
      with (c ++ String sep (Js.join (String sep "") (d :: r'))).
    rewrite (splitChar_piece _ _ _ Hc), IH;
      [reflexivity | discriminate | exact Hr].
Qed.

Lemma join_app_gen (sep : string) (l1 l2 : list string) :
  l1 <> [] -> l2 <> [] ->
  Js.join sep (l1 ++ l2) = Js.join sep l1 ++ sep ++ Js.join sep l2.
Proof.
  intros H1 H2. induction l1 as [|c r IH]; [congruence|].
  destruct r as [|d r'].
  - destruct l2 as [|e l2']; [congruence | reflexivity].
  - change (Js.join sep ((c :: d :: r') ++ l2))
      with (c ++ sep ++ Js.join sep ((d :: r') ++ l2)).
    rewrite IH by discriminate.
    change (Js.join sep (c :: d :: r'))
      with (c ++ sep ++ Js.join sep (d :: r')).
    now rewrite !append_assoc.
Qed.

Lemma lineFeed_lowerChar (c : ascii) :
  Ascii.eqb (Js.lowerChar c) lineFeed = Ascii.eqb c lineFeed.
Proof. all_chars c. Qed.

Lemma lineFeed_upperChar (c : ascii) :
  Ascii.eqb (Js.upperChar c) lineFeed = Ascii.eqb c lineFeed.
Proof. all_chars c. Qed.

Lemma freeOf_app (sep : ascii) (a b : string) :
  freeOf sep (a ++ b) = freeOf sep a && freeOf sep b.
Proof. apply allChars_app. Qed.

Lemma segmentsFrom_free (sep : ascii) (s cur : string) :
  freeOf sep cur = true -> freeOf sep s = true ->
  forallb (freeOf sep) (Spec.segmentsFrom cur s) = true.
Proof.
  revert cur. induction s as [|c r IH]; intros cur Hcur Hs.
  - cbn [Spec.segmentsFrom]. destruct (Js.truthy cur); [|reflexivity].
    cbn [forallb]. now rewrite Hcur.
  - unfold freeOf in Hs. simpl in Hs. apply andb_true_iff in Hs as [Hc Hr].
    cbn [Spec.segmentsFrom]. destruct (isDelim c).
    + destruct (Js.truthy cur); cbn [forallb]; rewrite ?Hcur;
        now apply IH.
    + apply IH; [|exact Hr]. rewrite freeOf_app, Hcur.
      unfold freeOf. cbn [Js.allChars]. now rewrite Hc.
Qed.

Lemma firstSegment_lineFree (seg : string) :
  freeOf lineFeed seg = true ->
  freeOf lineFeed (Spec.firstSegment seg) = true.
Proof.
  unfold freeOf, Spec.firstSegment. intros Hseg.
  destruct (isShouty seg).
  - rewrite allChars_mapChars; [exact Hseg|].
    intros c. now rewrite lineFeed_lowerChar.
  - destruct seg as [|c r]; [reflexivity|]. simpl in *.
    now rewrite lineFeed_lowerChar.
Qed.

Lemma laterSegment_lineFree (seg : string) :
  freeOf lineFeed seg = true ->
  freeOf lineFeed (Spec.laterSegment seg) = true.
Proof.
  unfold freeOf, Spec.laterSegment. intros Hseg.
  destruct seg as [|c r]; [reflexivity|].
  simpl in Hseg. apply andb_true_iff in Hseg as [Hc Hr].
  cbn [Js.allChars]. rewrite lineFeed_upperChar, Hc. cbn [andb].
  destruct (isShouty (String c r)); [|exact Hr].
  rewrite allChars_mapChars; [exact Hr|].
  intros d. now rewrite lineFeed_lowerChar.
Qed.

Lemma concat_lineFree (parts : list string) :
  forallb (freeOf lineFeed) parts = true ->
  freeOf lineFeed (String.concat "" parts) = true.
Proof.
  induction parts as [|a r IH]; intros Hall; [reflexivity|].
  cbn [forallb] in Hall. apply andb_true_iff in Hall as [Ha Hr].
  destruct r as [|b r'].
  - exact Ha.
  - change (String.concat "" (a :: b :: r'))
      with (a ++ "" ++ String.concat "" (b :: r')).
    rewrite !freeOf_app, Ha, (IH Hr). reflexivity.
Qed.

Lemma forallb_map_lineFree (f : string -> string) (l : list string) :
  (forall x, freeOf lineFeed x = true -> freeOf lineFeed (f x) = true) ->
  forallb (freeOf lineFeed) l = true ->
  forallb (freeOf lineFeed) (map f l) = true.
Proof.
  intros Hf. induction l as [|x r IH]; intros Hall; [reflexivity|].
  cbn [forallb map] in *. apply andb_true_iff in Hall as [Hx Hr].
  now rewrite (Hf _ Hx), (IH Hr).
Qed.

(** A name without a line feed is formatted without one. *)
Lemma formatClassName_lineFree (o : Options) (name : string) :
  freeOf lineFeed name = true ->
  freeOf lineFeed (formatClassName o name) = true.
Proof.
  intros Hname.
  assert (Hquote : forall s, freeOf lineFeed s = true ->
                             freeOf lineFeed (quote s) = true).
  { intros s Hs. unfold quote. rewrite !freeOf_app, Hs. reflexivity. }
  unfold formatClassName. destruct (nameFormat o).
  - rewrite formatCamelCase_spec.
    pose proof (segmentsFrom_free lineFeed name "" eq_refl Hname) as Hsegs.
    unfold Spec.camelCase. fold (Spec.segments name) in Hsegs.
    destruct (Spec.segments name) as [|p ps]; [exact Hname|].
    cbn [forallb] in Hsegs. apply andb_true_iff in Hsegs as [Hp Hps].
    assert (Hconv : freeOf lineFeed (Spec.convert (p :: ps)) = true).
    { unfold Spec.convert. apply concat_lineFree. cbn [forallb].
      rewrite (firstSegment_lineFree _ Hp).
      now apply forallb_map_lineFree; [apply laterSegment_lineFree|]. }
    unfold Spec.quoteIfInvalid.
    destruct (isIdentifier (Spec.convert (p :: ps))); [exact Hconv|].
    now apply (Hquote _ Hconv).
  - now apply Hquote.
  - destruct (isIdentifier name); [exact Hname | now apply Hquote].
Qed.

Lemma wrapped_lineFree (pre post name : string) :
  freeOf lineFeed pre = true -> freeOf lineFeed post = true ->
  freeOf lineFeed name = true ->
  freeOf lineFeed (pre ++ name ++ post) = true.
Proof. intros H1 H2 H3. now rewrite !freeOf_app, H1, H2, H3. Qed.

Lemma formatted_lines_free (o : Options) (wrap : string -> string)
  (classNames : list string) :
  (forall n, freeOf lineFeed n = true -> freeOf lineFeed (wrap n) = true) ->
  forallb (freeOf lineFeed) classNames = true ->
  forallb (freeOf lineFeed) (map wrap (map (formatClassName o) classNames))
  = true.
Proof.
  intros Hwrap Hall. apply forallb_map_lineFree; [exact Hwrap|].
  apply forallb_map_lineFree; [apply formatClassName_lineFree | exact Hall].
Qed.

(** X17: for class names without a line feed, at least one of them, the
    lines of the ['named'] text are the declarations of the class names, one
    line each, in the order of the names, and nothing else. *)
Theorem X17_named_text_lines (o : Options) (classNames : list string)
  (Hne : classNames <> [])
  (Hfree : forallb (freeOf lineFeed) classNames = true) :
  lines (generateTypeDefinition (setExportType ExportNamed o) classNames) =
  map (fun n => "export declare const " ++ formatClassName o n ++ ": string;")
      classNames.
Proof.
  rewrite generate_named_text. unfold lines.
  change nl with (String lineFeed "").
  rewrite splitChar_join_gen.
  - rewrite map_map. reflexivity.
  - destruct classNames; [congruence | discriminate].
  - apply formatted_lines_free; [|exact Hfree].
    intros n Hn. unfold namedLine. now apply wrapped_lineFree.
Qed.

Lemma X17_named_text_lines_witness :
  ["btn"; "btn-primary"] <> [] /\
  forallb (freeOf lineFeed) ["btn"; "btn-primary"] = true /\
  lines (generateTypeDefinition
           (setExportType ExportNamed (defaults "*.css"))
           ["btn"; "btn-primary"]) =
  ["export declare const btn: string;";
   "export declare const btnPrimary: string;"].
Proof.
  split; [discriminate|]. split; [reflexivity|].
  exact (X17_named_text_lines (defaults "*.css") ["btn"; "btn-primary"]
           ltac:(discriminate) eq_refl).
Defined.

(** X18: for class names without a line feed, at least one of them, the
    lines of the ['default'] text are the opening of the interface, one
    read-only member per class name in the order of the names, and the
    seven closing lines; the index signature does not occur. *)
Theorem X18_default_text_lines (o : Options) (classNames : list string)
  (Hne : classNames <> [])
  (Hfree : forallb (freeOf lineFeed) classNames = true) :
  lines (generateTypeDefinition (setExportType ExportDefault o) classNames) =
  ("export interface CssModuleClasses {" ::
   map (fun n => ("  readonly " ++ formatClassName o n ++ ": string;")%string)
       classNames ++
   ["}"; ""; "export type ClassNames = keyof CssModuleClasses;"; "";
    "declare const classes: CssModuleClasses;"; "export default classes;";
    ""])%list.
Proof.
  set (members := map memberLine (map (formatClassName o) classNames)).
  set (closing := ["}"; ""; "export type ClassNames = keyof CssModuleClasses;";
                   ""; "declare const classes: CssModuleClasses;";
                   "export default classes;"; ""]).
  assert (Hmne : members <> []).
  { subst members. destruct classNames; [congruence | discriminate]. }
  assert (Htext : generateTypeDefinition (setExportType ExportDefault o)
                    classNames
                  = Js.join (String lineFeed "")
                      (["export interface CssModuleClasses {"] ++
                       members ++ closing)%list).
  { assert (Hbody : classNamesType (map (formatClassName o) classNames)
                    = Js.join nl members).
    { subst members. destruct classNames as [|c r]; [congruence | reflexivity]. }
    rewrite generate_default_text. unfold defaultBlock. rewrite Hbody.
    rewrite (join_app_gen _ [_] (members ++ closing)) by
      (try discriminate; intros E; apply app_eq_nil in E as [E _]; congruence).
    rewrite (join_app_gen _ members closing Hmne) by discriminate.
    subst closing. reflexivity. }
  rewrite Htext. unfold lines. rewrite splitChar_join_gen.
  - subst members. rewrite map_map. reflexivity.
  - discriminate.
  - rewrite !forallb_app. cbn [forallb andb]. rewrite andb_true_r.
    cbn [freeOf Js.allChars]. subst members.
    rewrite formatted_lines_free; [reflexivity | | exact Hfree].
    intros n Hn. unfold memberLine. now apply wrapped_lineFree.
Qed.

Lemma X18_default_text_lines_witness :
  ["btn"; "btn-primary"] <> [] /\
  forallb (freeOf lineFeed) ["btn"; "btn-primary"] = true /\
  lines (generateTypeDefinition
           (setExportType ExportDefault (defaults "*.css"))
           ["btn"; "btn-primary"]) =
  ["export interface CssModuleClasses {";
   "  readonly btn: string;"; "  readonly btnPrimary: string;";
   "}"; ""; "export type ClassNames = keyof CssModuleClasses;"; "";
   "declare const classes: CssModuleClasses;"; "export default classes;"; ""].
Proof.
  split; [discriminate|]. split; [reflexivity|].
  exact (X18_default_text_lines (defaults "*.css") ["btn"; "btn-primary"]
           ltac:(discriminate) eq_refl).
Defined.

(** ** The change and add handlers *)

Lemma watchCalls_app (a b : list WatchEvent) :
  watchCalls (a ++ b) = (watchCalls a ++ watchCalls b)%list.
Proof.
  induction a as [|e a IH]; [reflexivity|].
  destruct e as [ch l|[ch m att|c]]; cbn [app watchCalls]; rewrite IH;
    reflexivity.
Qed.

Lemma watchCalls_inner (es : list Event) :
  watchCalls (map Inner es) = calls es.
Proof.
  induction es as [|e r IH]; [reflexivity|].
  destruct e; cbn [map watchCalls calls]; rewrite IH; reflexivity.
Qed.

Lemma watchArtifacts_app (a b : list WatchEvent) :
  watchArtifacts (a ++ b) = (watchArtifacts a ++ watchArtifacts b)%list.
Proof.
  induction a as [|e a IH]; [reflexivity|].
  destruct e as [ch l|[ch m att|[]]]; cbn [app watchArtifacts]; rewrite IH;
    reflexivity.
Qed.

Lemma watchArtifacts_inner (es : list Event) :
  watchArtifacts (map Inner es) = artifacts es.
Proof.
  induction es as [|e r IH]; [reflexivity|].
  destruct e as [ch m att|[]]; cbn [map watchArtifacts artifacts];
    rewrite IH; reflexivity.
Qed.

Ltac unfold_handler :=
  unfold onChange, onAdd, wbind, wprint, wexists, wret, runGenerator;
  cbn [wfs wevents fst snd].

Section HandlerRuns.
Context {FS : Type} `{Collaborators FS}.
Variable cwd : Path.Cwd.

Lemma generate_result (o : Options) (w : World FS) :
  fst (generate cwd o w) =
  match glob (pattern o) (fs w) with
  | Ok _ => Ok tt
  | Throw e => Throw e
  end.
Proof.
  rewrite generate_run. destruct (glob (pattern o) (fs w)) as [files|e].
  - apply forEach_processFile.
  - reflexivity.
Qed.

Lemma processSingleFile_result (filePath : string)
  (options : SingleFileOptions) (w : World FS) :
  fst (processSingleFile cwd filePath options w) =
  match glob filePath (fs w) with
  | Ok _ => Ok tt
  | Throw e => Throw e
  end.
Proof.
  change (processSingleFile cwd filePath options w)
    with (generate cwd (construct (tempOptions filePath options))
            (record (Printed ConsoleInfo (MsgSingleFile filePath) None) w)).
  rewrite generate_result. reflexivity.
Qed.

(** X19: the change and the add handler ignore a path that does not pass
    the watch filter: they return normally, call nothing and leave the file
    tree as it was. *)
Theorem X19_handlers_ignore_other_files (options : CliOptions)
  (filePath : string) (w : WatchWorld FS)
  (Hother : moduleCssFilePattern filePath = false) :
  (fst (onChange cwd options filePath w) = Ok tt /\
   wfs (snd (onChange cwd options filePath w)) = wfs w /\
   watchCalls (wevents (snd (onChange cwd options filePath w))) =
   watchCalls (wevents w)) /\
  (fst (onAdd cwd options filePath w) = Ok tt /\
   wfs (snd (onAdd cwd options filePath w)) = wfs w /\
   watchCalls (wevents (snd (onAdd cwd options filePath w))) =
   watchCalls (wevents w)).
Proof.
  unfold onChange, onAdd. rewrite Hother. cbn [negb].
  unfold wprint, wret.
  destruct (flag (cli_debug options)); cbn [fst snd wfs wevents];
    rewrite ?watchCalls_app; cbn [watchCalls]; rewrite ?app_nil_r;
    repeat split.
Qed.

(** X20: an add event and a change event for the same path are handled
    alike: same result, same file tree afterwards, same calls in the same
    order, same artifacts written; only the printed lines differ. *)
Theorem X20_add_is_handled_as_change (options : CliOptions)
  (filePath : string) (w : WatchWorld FS) :
  fst (onAdd cwd options filePath w) =
  fst (onChange cwd options filePath w) /\
  wfs (snd (onAdd cwd options filePath w)) =
  wfs (snd (onChange cwd options filePath w)) /\
  watchCalls (wevents (snd (onAdd cwd options filePath w))) =
  watchCalls (wevents (snd (onChange cwd options filePath w))) /\
  watchArtifacts (wevents (snd (onAdd cwd options filePath w))) =
  watchArtifacts (wevents (snd (onChange cwd options filePath w))).
Proof.
  unfold_handler.
  destruct (moduleCssFilePattern filePath); cbn [negb];
    destruct (flag (cli_debug options)); cbn [wfs wevents fst snd];
    try (destruct (processSingleFile cwd (absolutePath cwd filePath)
                     (otherOptions options) _) as [r w']);
    cbn [wfs wevents fst snd];
    rewrite ?watchCalls_app, ?watchArtifacts_app;
    cbn [watchCalls watchArtifacts]; repeat split.
Qed.

(** X21: for a path that passes the watch filter the change handler runs
    the single-file pipeline on the absolute form of the path, starting
    from the handler's file tree.  It throws only when the discovery does:
    a stylesheet that cannot be loaded, parsed or written does not make
    the handler fail.  Besides the calls of that run it asks for the
    existence of the two forms of the path, and only under debug. *)
Theorem X21_change_runs_the_pipeline (options : CliOptions)
  (filePath : string) (w : WatchWorld FS)
  (Hmod : moduleCssFilePattern filePath = true) :
  let absolute := absolutePath cwd filePath in
  let run := processSingleFile cwd absolute (otherOptions options)
               {| fs := wfs w; events := [] |} in
  fst (onChange cwd options filePath w) =
    match glob absolute (wfs w) with
    | Ok _ => Ok tt
    | Throw e => Throw e
    end /\
  wfs (snd (onChange cwd options filePath w)) = fs (snd run) /\
  watchCalls (wevents (snd (onChange cwd options filePath w))) =
    (watchCalls (wevents w) ++
     (if flag (cli_debug options)
      then [CallExists filePath; CallExists absolute] else []) ++
     calls (events (snd run)))%list /\
  watchArtifacts (wevents (snd (onChange cwd options filePath w))) =
    (watchArtifacts (wevents w) ++ artifacts (events (snd run)))%list.
Proof.
  cbv zeta.
  pose proof (processSingleFile_result (absolutePath cwd filePath)
                (otherOptions options) {| fs := wfs w; events := [] |})
    as Hres.
  cbn [fs] in Hres.
  unfold_handler. rewrite Hmod. cbn [negb].
  destruct (flag (cli_debug options)); cbn [wfs wevents fst snd];
    destruct (processSingleFile cwd (absolutePath cwd filePath)
                (otherOptions options) _) as [r w'];
    cbn [wfs wevents fst snd] in *;
    rewrite ?watchCalls_app, ?watchArtifacts_app, ?watchCalls_inner,
            ?watchArtifacts_inner;
    cbn [watchCalls watchArtifacts app]; rewrite ?app_nil_r, <- ?app_assoc;
    repeat split; try exact Hres; reflexivity.
Qed.

End HandlerRuns.

Lemma X19_handlers_ignore_other_files_witness :
  let w := {| wfs := Mem.tree3; wevents := [] |} in
  moduleCssFilePattern "styles/global.css" = false /\
  fst (onChange ["app"] Mem.noOptions "styles/global.css" w) = Ok tt /\
  wfs (snd (onChange ["app"] Mem.noOptions "styles/global.css" w)) =
    Mem.tree3.
Proof.
  cbv zeta. split; [reflexivity|].
  pose proof (X19_handlers_ignore_other_files ["app"] Mem.noOptions
                "styles/global.css" {| wfs := Mem.tree3; wevents := [] |}
                eq_refl) as [[Hres [Htree _]] _].
  split; [exact Hres | exact Htree].
Defined.

Lemma X21_change_runs_the_pipeline_witness :
  let w := {| wfs := [("/app/a.module.css", "!")]; wevents := [] |} in
  moduleCssFilePattern "a.module.css" = true /\
  fst (onChange ["app"] Mem.noOptions "a.module.css" w) = Ok tt /\
  watchArtifacts
    (wevents (snd (onChange ["app"] Mem.noOptions "a.module.css" w))) = [].
Proof.
  cbv zeta. split; [reflexivity|].
  pose proof (X21_change_runs_the_pipeline ["app"] Mem.noOptions
                "a.module.css"
                {| wfs := [("/app/a.module.css", "!")]; wevents := [] |}
                eq_refl) as [Hres [_ [_ Harts]]].
  split; [exact Hres | exact Harts].
Defined.
